(** * Config: parameter store, environment assembly and restart propagation

    A shallow embedding of the [Config] namespace (SSM-backed parameters and
    secrets, and the restart of the functions and sites that consume them).

    JavaScript strings are modelled as [string]; arrays as [list]; the
    object built by [Object.fromEntries] as a [gmap string string]; the
    remote services (SSM, Lambda, IoT, the stack metadata) as an oracle that
    answers one command at a time and may throw. *)

From Stdlib Require Import ZArith List Ascii String Lia Permutation.
From stdpp Require Import base option list gmap strings pretty.

(* ===================================================================== *)
(** ** JavaScript string and array primitives used by the module *)
(* ===================================================================== *)

Module Js.

(** [s.replace(/c/g, d)] for a one-character pattern and replacement. *)
Fixpoint replaceAll (c d : ascii) (s : string) : string :=
  match s with
  | EmptyString => EmptyString
  | String x s' =>
      String (if Ascii.eqb x c then d else x) (replaceAll c d s')
  end.

(** [s.includes(c)] for a one-character needle. *)
Fixpoint includes (c : ascii) (s : string) : bool :=
  match s with
  | EmptyString => false
  | String x s' => Ascii.eqb x c || includes c s'
  end.

(** [s.substring(n)]: the characters from index [n] on, empty when [n]
    is past the end. *)
Fixpoint substring (n : nat) (s : string) : string :=
  match n, s with
  | O, _ => s
  | S _, EmptyString => EmptyString
  | S n', String _ s' => substring n' s'
  end.

(** [s.split(c)] for a one-character separator; the empty string splits
    into one empty part. *)
Fixpoint split (c : ascii) (s : string) : list string :=
  match s with
  | EmptyString => [EmptyString]
  | String x s' =>
      if Ascii.eqb x c then EmptyString :: split c s'
      else match split c s' with
           | [] => [String x EmptyString]
           | part :: parts => String x part :: parts
           end
  end.

(** [parts.join(sep)]. *)
Fixpoint join (sep : string) (parts : list string) : string :=
  match parts with
  | [] => EmptyString
  | [p] => p
  | p :: ps => p +:+ sep +:+ join sep ps
  end.

(** [parts.slice(n)]. *)
Definition slice {A} (n : nat) (parts : list A) : list A := drop n parts.

(** [s.startsWith(p)]. *)
Definition startsWith (s p : string) : bool := String.prefix p s.

(** A value interpolated in a template literal; a missing one prints as
    the word undefined. *)
Definition interpolate (v : option string) : string :=
  match v with
  | Some s => s
  | None => "undefined"
  end.

(** [xs.includes(x)] on an array of strings. *)
Definition array_includes (xs : list string) (x : string) : bool :=
  existsb (String.eqb x) xs.

(** [v === s] for a possibly undefined [v] and a string literal [s]. *)
Definition strict_eq (v : option string) (s : string) : bool :=
  match v with
  | Some x => String.eqb x s
  | None => false
  end.

(** Truthiness of a [boolean | undefined]. *)
Definition truthy (v : option bool) : bool := default false v.

(** [Object.fromEntries(entries)]: a later entry overwrites an earlier one
    with the same key. *)
Definition fromEntries (entries : list (string * string)) : gmap string string :=
  fold_left (fun o kv => <[kv.1 := kv.2]> o) entries ∅.

(** [{ ...base, ...o }]: the properties of [o] over those of [base]. *)
Definition spread (base o : gmap string string) : gmap string string :=
  o ∪ base.

End Js.

(* ===================================================================== *)
(** ** Project configuration and parameter paths *)
(* ===================================================================== *)

(** The part of [useProject().config] the module reads. *)
Record Project := {
  name : string;
  stage : string;
  ssmPrefix : string;
}.

Definition FALLBACK_STAGE : string := ".fallback".
Definition SECRET_UPDATED_AT_ENV : string := "SST_ADMIN_SECRET_UPDATED_AT".

(** What [parse] returns: [type] and [id] are array reads and may be
    undefined. *)
Record Parsed := {
  type : option string;
  id : option string;
  prop : string;
}.

(** An entry of [Config.parameters()]: the parsed name and the value. *)
Record Param := {
  parsed : Parsed;
  value : string;
}.

(** The argument of [pathFor]. *)
Record PathInput := {
  pi_id : string;
  pi_type : string;
  pi_prop : string;
  pi_fallback : bool;
}.

Inductive Tier := Standard | Advanced.

(** The argument of [setSecret], [getSecret] and [removeSecret]. *)
Record SecretInput := {
  si_key : string;
  si_value : string;
  si_fallback : bool;
}.

(* ===================================================================== *)
(** ** Deployment metadata *)
(* ===================================================================== *)

Module Stacks.

(** [mode] of a site's metadata, typed ["placeholder" | "deployed"]. *)
Inductive Mode := placeholder | deployed.

(** The properties of [c.data] that [restart] reads.  [edge] and
    [prefetchSecrets] are typed [boolean | undefined]. *)
Record Data := {
  secrets : list string;
  mode : Mode;
  prefetchSecrets : option bool;
  edge : option bool;
  server : string;
  arn : string;
}.

Record Construct := {
  type : string;
  data : Data;
}.

(** The snapshot [Stacks.metadata()] resolves to: constructs by stack. *)
Definition Metadata := list (string * list Construct).

End Stacks.

(* ===================================================================== *)
(** ** Remote services *)
(* ===================================================================== *)

Record JsError := {
  err_name : string;
  err_message : string;
}.

(** The outcome of running a piece of the program: it returns, it throws,
    or the model ran out of fuel in the pagination loop. *)
Inductive Outcome (A : Type) :=
| Return (a : A)
| Throw (e : JsError)
| OutOfFuel.
Arguments Return {A} a.
Arguments Throw {A} e.
Arguments OutOfFuel {A}.

Record RawParameter := {
  Name : string;
  Value : string;
}.

Record GetParametersByPathResult := {
  res_Parameters : option (list RawParameter);
  res_NextToken : option string;
}.

Record GetParameterResult := {
  res_Parameter : option RawParameter;
}.

Record EnvironmentResponse := {
  env_Variables : option (gmap string string);
}.

Record FunctionConfiguration := {
  cfg_Environment : option EnvironmentResponse;
}.

(** How the promise of a request settles. *)
Inductive Settled (R : Type) :=
| Fulfilled (r : R)
| Rejected (e : JsError).
Arguments Fulfilled {R} r.
Arguments Rejected {R} e.

(** The requests the module sends, indexed by the type of their answer.
    Fields the module always sets to the same constant ([WithDecryption],
    [Recursive], [Type], [Overwrite]) are left out. *)
Inductive Command : Type -> Type :=
| GetParametersByPathCommand (Path : string) (Token : option string)
    : Command GetParametersByPathResult
| GetParameterCommand (ParamName : string) : Command GetParameterResult
| PutParameterCommand (ParamName ParamValue : string) (ParamTier : Tier)
    : Command unit
| DeleteParameterCommand (ParamName : string) : Command unit
| GetFunctionConfigurationCommand (FunctionName : string)
    : Command FunctionConfiguration
| UpdateFunctionConfigurationCommand (FunctionName : string)
    (Vars : gmap string string) : Command unit
| StacksMetadata : Command Stacks.Metadata
| UseIOT : Command string
| IotPublish (topic event name : string) : Command unit.

(** A request that was sent, as recorded in the trace. *)
Inductive Call : Type :=
| Sent : forall R : Type, Command R -> Call.
Arguments Sent {R} c.

(** The services: how a state [B] of the outside world answers a request,
    and what [Date.now()] reads there. *)
Record Backend (B : Type) := {
  respond : forall R : Type, Command R -> B -> Settled R * B;
  now : B -> Z;
}.
Arguments respond {B} _ {R} _ _.
Arguments now {B} _ _.

(** The outside world together with the requests sent so far. *)
Record World (B : Type) := {
  svc : B;
  trace : list Call;
}.
Arguments svc {B} _.
Arguments trace {B} _.
Arguments Build_World {B} _ _.

(** Computations: state passing over the world, with exceptions. *)
Definition M (B A : Type) : Type := World B -> Outcome A * World B.

Definition ret {B A} (a : A) : M B A := fun w => (Return a, w).

Definition throw {B A} (e : JsError) : M B A := fun w => (Throw e, w).

Definition bind {B A C} (m : M B A) (k : A -> M B C) : M B C :=
  fun w =>
    match m w with
    | (Return a, w') => k a w'
    | (Throw e, w') => (Throw e, w')
    | (OutOfFuel, w') => (OutOfFuel, w')
    end.

Notation "x <- m ;; k" := (bind m (fun x => k))
  (at level 100, m at next level, right associativity).
Notation "m ;;; k" := (bind m (fun _ => k))
  (at level 100, right associativity).

(** [try { body } catch (e) { handler }]. *)
Definition try_catch {B A} (body : M B A) (handler : JsError -> M B A) : M B A :=
  fun w =>
    match body w with
    | (Throw e, w') => handler e w'
    | r => r
    end.

(** [Promise.all(xs.map(async (x) => f x))], each [f x] run to its end in
    the order of [xs]. *)
Fixpoint mapM {B A C} (f : A -> M B C) (xs : list A) : M B (list C) :=
  match xs with
  | [] => ret []
  | x :: xs' => y <- f x ;; ys <- mapM f xs' ;; ret (y :: ys)
  end.

(** A pure computation that may throw, run inside [M]. *)
Definition lift {B A} (o : Outcome A) : M B A := fun w => (o, w).

Section Services.

Context {B : Type} (backend : Backend B).

(** [client.send(command)]. *)
Definition send {R} (c : Command R) : M B R :=
  fun w =>
    let (r, b') := respond backend c (svc w) in
    (match r with Fulfilled x => Return x | Rejected e => Throw e end,
     {| svc := b'; trace := trace w ++ [Sent c] |}).

Definition Date_now : M B Z := fun w => (Return (now backend (svc w)), w).

(** The async generator, run to its end: every parameter it yields, in
    order.  [fuel] bounds the number of pages. *)
Fixpoint scanParameters (fuel : nat) (prefix : string) (token : option string)
  : M B (list RawParameter) :=
  match fuel with
  | O => fun w => (OutOfFuel, w)
  | S fuel' =>
      results <- send (GetParametersByPathCommand prefix token) ;;
      let yielded := default [] (res_Parameters results) in
      match res_NextToken results with
      | None => ret yielded
      | Some next =>
          if String.eqb next "" then ret yielded
          else rest <- scanParameters fuel' prefix (Some next) ;;
               ret (yielded ++ rest)
      end
  end.

Definition getParameter (name : string) : M B GetParameterResult :=
  send (GetParameterCommand name).

Definition putParameter (name value : string) : M B unit :=
  send (PutParameterCommand name value
          (if (4096 <? String.length value)%nat then Advanced else Standard)).

Definition deleteParameter (name : string) : M B unit :=
  send (DeleteParameterCommand name).

(** Returns [true], or [false] for the JavaScript [undefined] it returns
    on every path through the [catch] block. *)
Definition restartFunction (arn : string) : M B bool :=
  try_catch
    (config <- send (GetFunctionConfigurationCommand arn) ;;
     stamp <- Date_now ;;
     send (UpdateFunctionConfigurationCommand arn
             (<[SECRET_UPDATED_AT_ENV := pretty stamp]>
                (default ∅ (cfg_Environment config ≫= env_Variables)))) ;;;
     ret true)
    (fun e =>
       if String.eqb (err_name e) "ResourceNotFoundException"
          && Js.startsWith (err_message e) "Function not found"
       then ret false
       else ret false).

End Services.

Definition parse (ssmName prefix : string) : Parsed :=
  let parts := Js.split "/" (Js.substring (String.length prefix) ssmName) in
  {| type := parts !! 0%nat;
     id := parts !! 1%nat;
     prop := Js.join "/" (Js.slice 2 parts) |}.

(** The object [restart] returns. *)
Record Report := {
  edgeSites : list Stacks.Construct;
  sites : list Stacks.Construct;
  placeholderSites : list Stacks.Construct;
  functions : list Stacks.Construct;
  sitesWithPrefetch : list Stacks.Construct;
  functionsWithPrefetch : list Stacks.Construct;
}.

(** The named groups of the report, as [Object.entries] lists them. *)
Definition Report_entries (r : Report) : list (string * list Stacks.Construct) :=
  [ ("edgeSites", edgeSites r);
    ("sites", sites r);
    ("placeholderSites", placeholderSites r);
    ("functions", functions r);
    ("sitesWithPrefetch", sitesWithPrefetch r);
    ("functionsWithPrefetch", functionsWithPrefetch r) ].

Module Config.

Definition PREFIX_STAGE (project : Project) : string := ssmPrefix project.

Definition PREFIX_FALLBACK (project : Project) : string :=
  "/sst/" +:+ name project +:+ "/" +:+ FALLBACK_STAGE +:+ "/".

Definition normalizeID (input : string) : string :=
  Js.replaceAll "-" "_" input.

(** What [normalizeID(undefined)] throws. *)
Definition undefined_replace : JsError :=
  {| err_name := "TypeError";
     err_message := "Cannot read properties of undefined (reading 'replace')" |}.

Definition envFor (input : Parsed) : Outcome string :=
  match id input with
  | None => Throw undefined_replace
  | Some i =>
      Return ("SST_" +:+ Js.interpolate (type input) +:+ "_" +:+ prop input
                +:+ "_" +:+ normalizeID i)
  end.

Definition pathFor (project : Project) (input : PathInput) : string :=
  (if pi_fallback input then PREFIX_FALLBACK project else PREFIX_STAGE project)
    +:+ pi_type input +:+ "/" +:+ normalizeID (pi_id input) +:+ "/" +:+ pi_prop input.

(** One [for await] loop of [parameters]: every scanned [p] that is not
    skipped is pushed on [result]. *)
Definition collect (prefix : string) (scanned : list RawParameter)
    (result : list Param) : list Param :=
  fold_left
    (fun result p =>
       let parsed := parse (Name p) prefix in
       if Js.strict_eq (type parsed) "secrets" then result
       else result ++ [{| parsed := parsed; value := Value p |}])
    scanned result.

(** [pipe(parameters, map((p) => [envFor(p), p.value]))], which stops at
    the first [envFor] that throws. *)
Fixpoint envEntries (parameters : list Param) : Outcome (list (string * string)) :=
  match parameters with
  | [] => Return []
  | p :: ps =>
      match envFor (parsed p) with
      | Return k =>
          match envEntries ps with
          | Return es => Return ((k, value p) :: es)
          | Throw e => Throw e
          | OutOfFuel => OutOfFuel
          end
      | Throw e => Throw e
      | OutOfFuel => OutOfFuel
      end
  end.

(** *** The resources [restart] selects from a metadata snapshot *)

(** [Object.values(metadata).flat()]. *)
Definition flat (metadata : Stacks.Metadata) : list Stacks.Construct :=
  concat (map snd metadata).

Definition isSite (c : Stacks.Construct) : bool :=
  String.eqb (Stacks.type c) "AstroSite"
  || String.eqb (Stacks.type c) "NextjsSite"
  || String.eqb (Stacks.type c) "RemixSite"
  || String.eqb (Stacks.type c) "SolidStartSite"
  || String.eqb (Stacks.type c) "SvelteKitSite".

(** [keys.some((key) => c.data.secrets.includes(key))]. *)
Definition usesSomeKey (keys : list string) (c : Stacks.Construct) : bool :=
  existsb (fun key => Js.array_includes (Stacks.secrets (Stacks.data c)) key) keys.

Definition isPlaceholder (c : Stacks.Construct) : bool :=
  match Stacks.mode (Stacks.data c) with
  | Stacks.placeholder => true
  | Stacks.deployed => false
  end.

Definition isDeployed (c : Stacks.Construct) : bool :=
  match Stacks.mode (Stacks.data c) with
  | Stacks.placeholder => false
  | Stacks.deployed => true
  end.

Definition hasPrefetch (c : Stacks.Construct) : bool :=
  Js.truthy (Stacks.prefetchSecrets (Stacks.data c)).

Definition isEdge (c : Stacks.Construct) : bool :=
  Js.truthy (Stacks.edge (Stacks.data c)).

Section Selection.

Variable keys : list string.
Variable metadata : Stacks.Metadata.

Definition siteData : list Stacks.Construct :=
  List.filter (usesSomeKey keys) (List.filter isSite (flat metadata)).

Definition siteDataPlaceholder : list Stacks.Construct :=
  List.filter isPlaceholder siteData.

Definition siteDataWithPrefetchSecrets : list Stacks.Construct :=
  List.filter hasPrefetch (List.filter isDeployed siteData).

Definition siteDataEdge : list Stacks.Construct :=
  List.filter isEdge
    (List.filter (fun c => negb (hasPrefetch c))
       (List.filter isDeployed siteData)).

Definition siteDataRegional : list Stacks.Construct :=
  List.filter (fun c => negb (isEdge c))
    (List.filter (fun c => negb (hasPrefetch c))
       (List.filter isDeployed siteData)).

Definition regionalSiteArns : list string :=
  map (fun s => Stacks.server (Stacks.data s)) siteData.

Definition functionData : list Stacks.Construct :=
  List.filter (usesSomeKey keys)
    (List.filter
       (fun c => negb (Js.array_includes regionalSiteArns (Stacks.arn (Stacks.data c))))
       (List.filter (fun c => String.eqb (Stacks.type c) "Function")
          (flat metadata))).

Definition functionDataWithPrefetchSecrets : list Stacks.Construct :=
  List.filter hasPrefetch functionData.

Definition functionDataWithoutPrefetchSecrets : list Stacks.Construct :=
  List.filter (fun c => negb (hasPrefetch c)) functionData.

End Selection.

(** *** The object [secrets] builds *)

(** A record of the object [secrets] returns: its own [value] and
    [fallback] properties. *)
Record SecretValues := {
  sv_value : option string;
  sv_fallback : option string;
}.

(** The property names a plain object inherits from [Object.prototype]. *)
Definition Object_prototype_names : list string :=
  [ "constructor"; "__defineGetter__"; "__defineSetter__"; "hasOwnProperty";
    "__lookupGetter__"; "__lookupSetter__"; "isPrototypeOf";
    "propertyIsEnumerable"; "toString"; "valueOf"; "__proto__";
    "toLocaleString" ].

(** [result[parsed.id].value = p.Value] and
    [result[parsed.id].fallback = p.Value]. *)
Definition setValue (v : string) (r : SecretValues) : SecretValues :=
  {| sv_value := Some v; sv_fallback := sv_fallback r |}.

Definition setFallback (v : string) (r : SecretValues) : SecretValues :=
  {| sv_value := sv_value r; sv_fallback := Some v |}.

(** One iteration of a loop of [secrets]: the record [result[parsed.id]]
    is created when the read finds nothing, then assigned the value; an
    undefined id is the property name undefined.  The answer is [None]
    when [result] has no own property of that name but inherits one from
    [Object.prototype]: the read is then truthy, no record is created and
    the assignment lands on the inherited object, which this model does
    not follow. *)
Definition assignSecret (assign : string -> SecretValues -> SecretValues)
    (prefix : string) (result : option (gmap string SecretValues))
    (p : RawParameter) : option (gmap string SecretValues) :=
  match result with
  | None => None
  | Some result =>
      let parsed := parse (Name p) prefix in
      let key := Js.interpolate (id parsed) in
      match result !! key with
      | Some r => Some (<[key := assign (Value p) r]> result)
      | None =>
          if Js.array_includes Object_prototype_names key then None
          else Some (<[key := assign (Value p)
                                {| sv_value := None; sv_fallback := None |}]> result)
      end
  end.

Section WithBackend.

Context {B : Type} (backend : Backend B) (project : Project).

Definition parameters (fuel : nat) : M B (list Param) :=
  fromFallback <- scanParameters backend fuel (PREFIX_FALLBACK project) None ;;
  let result := collect (PREFIX_FALLBACK project) fromFallback [] in
  fromStage <- scanParameters backend fuel (PREFIX_STAGE project) None ;;
  ret (collect (PREFIX_STAGE project) fromStage result).

Definition env (fuel : nat) : M B (gmap string string) :=
  parameters <- parameters fuel ;;
  entries <- lift (envEntries parameters) ;;
  ret (Js.spread
         (<["SST_STAGE" := stage project]> (<["SST_APP" := name project]> ∅))
         (Js.fromEntries entries)).

Definition wasAdvanced (e : JsError) : bool :=
  String.eqb (err_name e) "ValidationException"
  && Js.startsWith (err_message e)
       "This parameter uses the advanced-parameter tier. You can't downgrade a parameter from the advanced-parameter tier to the standard-parameter tier.".

Definition setSecret (input : SecretInput) : M B unit :=
  let paramName :=
    pathFor project
      {| pi_id := si_key input; pi_type := "Secret"; pi_prop := "value";
         pi_fallback := si_fallback input |} in
  try_catch (putParameter backend paramName (si_value input))
    (fun e =>
       if negb (wasAdvanced e) then throw e
       else deleteParameter backend paramName ;;;
            putParameter backend paramName (si_value input)) ;;;
  iot_prefix <- send backend UseIOT ;;
  let topic := iot_prefix +:+ "/events" in
  send backend (IotPublish topic "config.secret.updated" (si_key input)).

Definition getSecret (input : SecretInput) : M B (option string) :=
  result <- getParameter backend
              (pathFor project
                 {| pi_id := si_key input; pi_prop := "value"; pi_type := "Secret";
                    pi_fallback := si_fallback input |}) ;;
  ret (Value <$> res_Parameter result).

Definition removeSecret (input : SecretInput) : M B unit :=
  deleteParameter backend
    (pathFor project
       {| pi_id := si_key input; pi_type := "Secret"; pi_prop := "value";
          pi_fallback := si_fallback input |}).

(** One element of a [Promise.all] of [restart]: the resource when its
    restart returned [true], nothing otherwise. *)
Definition restartOne (target : Stacks.Construct -> string)
    (c : Stacks.Construct) : M B (option Stacks.Construct) :=
  restarted <- restartFunction backend (target c) ;;
  ret (if restarted then Some c else None).

Definition restart (keys : list string) : M B Report :=
  metadata <- send backend StacksMetadata ;;
  restartedSites <-
    (settled <- mapM (restartOne (fun s => Stacks.server (Stacks.data s)))
                  (siteDataRegional keys metadata) ;;
     ret (omap (fun c => c) settled)) ;;
  restartedFunctions <-
    (settled <- mapM (restartOne (fun f => Stacks.arn (Stacks.data f)))
                  (functionDataWithoutPrefetchSecrets keys metadata) ;;
     ret (omap (fun c => c) settled)) ;;
  ret {| edgeSites := siteDataEdge keys metadata;
         sites := restartedSites;
         placeholderSites := siteDataPlaceholder keys metadata;
         functions := restartedFunctions;
         sitesWithPrefetch := siteDataWithPrefetchSecrets keys metadata;
         functionsWithPrefetch := functionDataWithPrefetchSecrets keys metadata |}.

(** [None] stands for a run that left the model, see [assignSecret]. *)
Definition secrets (fuel : nat) : M B (option (gmap string SecretValues)) :=
  fromStage <- scanParameters backend fuel (PREFIX_STAGE project +:+ "Secret") None ;;
  let result :=
    fold_left (assignSecret setValue (PREFIX_STAGE project)) fromStage (Some ∅) in
  fromFallback <-
    scanParameters backend fuel (PREFIX_FALLBACK project +:+ "Secret") None ;;
  ret (fold_left (assignSecret setFallback (PREFIX_FALLBACK project))
         fromFallback result).

End WithBackend.

End Config.

(* ===================================================================== *)
(** ** Stand-ins for the services, to run the module on concrete inputs *)
(* ===================================================================== *)

(** A service that refuses every request with the same error. *)
Definition refusing (e : JsError) : Backend unit :=
  {| respond := fun R _ b => (Rejected e, b);
     now := fun _ => 0%Z |}.

(** A service that fulfils every request, with nothing to report: no
    parameters, no configured environment, the given metadata. *)
Definition agree (deployment : Stacks.Metadata) {R : Type} (cmd : Command R)
  : Settled R :=
  match cmd in Command R return Settled R with
  | GetParametersByPathCommand _ _ =>
      Fulfilled {| res_Parameters := None; res_NextToken := None |}
  | GetParameterCommand _ => Fulfilled {| res_Parameter := None |}
  | PutParameterCommand _ _ _ => Fulfilled tt
  | DeleteParameterCommand _ => Fulfilled tt
  | GetFunctionConfigurationCommand _ => Fulfilled {| cfg_Environment := None |}
  | UpdateFunctionConfigurationCommand _ _ => Fulfilled tt
  | StacksMetadata => Fulfilled deployment
  | UseIOT => Fulfilled "/sst/app/dev"
  | IotPublish _ _ _ => Fulfilled tt
  end.

Definition agreeable (deployment : Stacks.Metadata) : Backend unit :=
  {| respond := fun R cmd b => (agree deployment cmd, b);
     now := fun _ => 1700000000000%Z |}.

Module InMemory.

Record Stored := {
  st_name : string;
  st_value : string;
  st_tier : Tier;
}.

(** A parameter store, the deployed functions with their environment, the
    stack metadata and a clock. *)
Record Cloud := {
  ssm : list Stored;
  lambdas : list (string * gmap string string);
  deployment : Stacks.Metadata;
  clock : Z;
}.

Definition with_ssm (c : Cloud) (s : list Stored) : Cloud :=
  {| ssm := s; lambdas := lambdas c; deployment := deployment c; clock := clock c |}.

Definition with_lambdas (c : Cloud) (l : list (string * gmap string string)) : Cloud :=
  {| ssm := ssm c; lambdas := l; deployment := deployment c; clock := Z.succ (clock c) |}.

Definition downgrade_refused : JsError :=
  {| err_name := "ValidationException";
     err_message := "This parameter uses the advanced-parameter tier. You can't downgrade a parameter from the advanced-parameter tier to the standard-parameter tier. If necessary, you can delete the advanced parameter and recreate it as a standard parameter." |}.

Definition parameter_not_found : JsError :=
  {| err_name := "ParameterNotFound"; err_message := "" |}.

Definition function_not_found (fn : string) : JsError :=
  {| err_name := "ResourceNotFoundException";
     err_message := "Function not found: " +:+ fn |}.

Definition named (n : string) (s : Stored) : bool := String.eqb (st_name s) n.

Definition raw (s : Stored) : RawParameter :=
  {| Name := st_name s; Value := st_value s |}.

(** Pages of one parameter; the token is as long as the number of
    parameters already served. *)
Definition page (path : string) (token : option string) (c : Cloud)
  : GetParametersByPathResult :=
  let matching := List.filter (fun s => String.prefix path (st_name s)) (ssm c) in
  let served := match token with Some t => String.length t | None => 0%nat end in
  {| res_Parameters := Some (map raw (take 1 (drop served matching)));
     res_NextToken :=
       match drop (S served) matching with
       | [] => None
       | _ :: _ => Some (String "x" (default "" token))
       end |}.

Definition put (n v : string) (t : Tier) (c : Cloud) : Settled unit * Cloud :=
  let fresh := {| st_name := n; st_value := v; st_tier := t |} in
  match List.find (named n) (ssm c), t with
  | Some {| st_tier := Advanced |}, Standard => (Rejected downgrade_refused, c)
  | Some _, _ =>
      (Fulfilled tt,
       with_ssm c (map (fun s => if named n s then fresh else s) (ssm c)))
  | None, _ => (Fulfilled tt, with_ssm c (ssm c ++ [fresh]))
  end.

Definition delete (n : string) (c : Cloud) : Settled unit * Cloud :=
  match List.find (named n) (ssm c) with
  | Some _ => (Fulfilled tt, with_ssm c (List.filter (fun s => negb (named n s)) (ssm c)))
  | None => (Rejected parameter_not_found, c)
  end.

Definition get (n : string) (c : Cloud) : Settled GetParameterResult * Cloud :=
  match List.find (named n) (ssm c) with
  | Some s => (Fulfilled {| res_Parameter := Some (raw s) |}, c)
  | None => (Rejected parameter_not_found, c)
  end.

Definition configuration (fn : string) (c : Cloud)
  : Settled FunctionConfiguration * Cloud :=
  match List.find (fun l => String.eqb l.1 fn) (lambdas c) with
  | Some l =>
      (Fulfilled {| cfg_Environment := Some {| env_Variables := Some l.2 |} |}, c)
  | None => (Rejected (function_not_found fn), c)
  end.

Definition update (fn : string) (vars : gmap string string) (c : Cloud)
  : Settled unit * Cloud :=
  match List.find (fun l => String.eqb l.1 fn) (lambdas c) with
  | Some _ =>
      (Fulfilled tt,
       with_lambdas c
         (map (fun l => if String.eqb l.1 fn then (fn, vars) else l) (lambdas c)))
  | None => (Rejected (function_not_found fn), c)
  end.

Definition answer {R : Type} (cmd : Command R) : Cloud -> Settled R * Cloud :=
  match cmd in Command R return Cloud -> Settled R * Cloud with
  | GetParametersByPathCommand path token => fun c => (Fulfilled (page path token c), c)
  | GetParameterCommand n => get n
  | PutParameterCommand n v t => put n v t
  | DeleteParameterCommand n => delete n
  | GetFunctionConfigurationCommand fn => configuration fn
  | UpdateFunctionConfigurationCommand fn vars => update fn vars
  | StacksMetadata => fun c => (Fulfilled (deployment c), c)
  | UseIOT => fun c => (Fulfilled "/sst/app/dev", c)
  | IotPublish _ _ _ => fun c => (Fulfilled tt, c)
  end.

Definition backend : Backend Cloud :=
  {| respond := @answer; now := clock |}.

Definition start (c : Cloud) : World Cloud := {| svc := c; trace := [] |}.

Definition app : Project :=
  {| name := "app"; stage := "dev"; ssmPrefix := "/sst/app/dev/" |}.

End InMemory.

(* ===================================================================== *)
(** ** Concrete inputs *)
(* ===================================================================== *)

Module Fixtures.

Import InMemory.

Definition my_secret : SecretInput :=
  {| si_key := "my-key"; si_value := "hunter2"; si_fallback := false |}.

Definition empty_cloud : Cloud :=
  {| ssm := []; lambdas := []; deployment := []; clock := 1700000000000 |}.

(** A store that already holds the secret in the advanced tier. *)
Definition advanced_cloud : Cloud :=
  {| ssm := [ {| st_name := "/sst/app/dev/Secret/my_key/value";
                 st_value := "old";
                 st_tier := Advanced |} ];
     lambdas := []; deployment := []; clock := 1700000000000 |}.

Definition nowhere : World unit := {| svc := tt; trace := [] |}.

(** The secret as [setSecret] stores it, and a store that holds it. *)
Definition stored_secret : Stored :=
  {| st_name := "/sst/app/dev/Secret/my_key/value";
     st_value := "hunter2"; st_tier := Standard |}.

Definition secret_cloud : Cloud :=
  {| ssm := [stored_secret]; lambdas := []; deployment := [];
     clock := 1700000000000 |}.

(** The same parameter in the fallback scope and in the stage scope, and
    one more in the stage scope. *)
Definition fallback_host : Stored :=
  {| st_name := "/sst/app/.fallback/Parameter/db/host";
     st_value := "fallback.example"; st_tier := Standard |}.

Definition stage_host : Stored :=
  {| st_name := "/sst/app/dev/Parameter/db/host";
     st_value := "stage.example"; st_tier := Standard |}.

Definition stage_port : Stored :=
  {| st_name := "/sst/app/dev/Parameter/db/port";
     st_value := "5432"; st_tier := Standard |}.

(** One site of each kind, all reading the secret k; a function that is
    the server of the regional site; a plain function and one that
    prefetches, both reading k; and a function that does not read k. *)
Definition site (kind : string) (m : Stacks.Mode) (prefetch edge : option bool)
    (server : string) : Stacks.Construct :=
  {| Stacks.type := kind;
     Stacks.data := {| Stacks.secrets := ["k"]; Stacks.mode := m;
                       Stacks.prefetchSecrets := prefetch; Stacks.edge := edge;
                       Stacks.server := server; Stacks.arn := "" |} |}.

Definition function (arn : string) (reads : list string) (prefetch : option bool)
    : Stacks.Construct :=
  {| Stacks.type := "Function";
     Stacks.data := {| Stacks.secrets := reads; Stacks.mode := Stacks.deployed;
                       Stacks.prefetchSecrets := prefetch; Stacks.edge := None;
                       Stacks.server := ""; Stacks.arn := arn |} |}.

Definition placeholder_site := site "NextjsSite" Stacks.placeholder None None "fn-placeholder".
Definition prefetch_site := site "AstroSite" Stacks.deployed (Some true) (Some false) "fn-prefetch".
Definition edge_site := site "RemixSite" Stacks.deployed None (Some true) "fn-edge".
Definition regional_site := site "SvelteKitSite" Stacks.deployed (Some false) None "fn-regional".
Definition server_function := function "fn-regional" ["k"] None.
Definition plain_function := function "fn-plain" ["k"; "other"] None.
Definition prefetch_function := function "fn-baked" ["k"] (Some true).
Definition unrelated_function := function "fn-unrelated" ["other"] None.

Definition site_cloud : Cloud :=
  {| ssm := [];
     lambdas := [("fn-regional", ∅); ("fn-plain", {["STAGE" := "dev"]})];
     deployment :=
       [ ("web", [placeholder_site; prefetch_site; edge_site; regional_site]);
         ("api", [server_function; plain_function; prefetch_function;
                  unrelated_function]) ];
     clock := 1700000000000 |}.

Definition layered_cloud : Cloud :=
  {| ssm := [fallback_host; stage_host; stage_port];
     lambdas := []; deployment := []; clock := 1700000000000 |}.

(** A parameter under the stage prefix whose name has no further segment. *)
Definition orphan : Stored :=
  {| st_name := "/sst/app/dev/orphan"; st_value := "x"; st_tier := Standard |}.

Definition orphan_cloud : Cloud :=
  {| ssm := [stage_host; orphan];
     lambdas := []; deployment := []; clock := 1700000000000 |}.

(** A secret with a stage value and a fallback value, and one with a
    fallback value only. *)
Definition stage_token : Stored :=
  {| st_name := "/sst/app/dev/Secret/TOKEN/value";
     st_value := "stage-token"; st_tier := Standard |}.

Definition fallback_token : Stored :=
  {| st_name := "/sst/app/.fallback/Secret/TOKEN/value";
     st_value := "fallback-token"; st_tier := Standard |}.

Definition fallback_only : Stored :=
  {| st_name := "/sst/app/.fallback/Secret/SHARED/value";
     st_value := "shared"; st_tier := Standard |}.

Definition secrets_cloud : Cloud :=
  {| ssm := [stage_token; fallback_token; fallback_only];
     lambdas := []; deployment := []; clock := 1700000000000 |}.

(** The same type, id and prop in both scopes, followed in the stage scope
    by another parameter whose environment name is the same. *)
Definition colliding_cloud : Cloud :=
  {| ssm := [ {| st_name := "/sst/app/.fallback/Parameter/x/a_b";
                 st_value := "fallback"; st_tier := Standard |};
              {| st_name := "/sst/app/dev/Parameter/x/a_b";
                 st_value := "stage"; st_tier := Standard |};
              {| st_name := "/sst/app/dev/Parameter/b_x/a";
                 st_value := "INTRUDER"; st_tier := Standard |} ];
     lambdas := []; deployment := []; clock := 1700000000000 |}.

(** The same parameter in both scopes, of the type named secrets. *)
Definition skipped_cloud : Cloud :=
  {| ssm := [ {| st_name := "/sst/app/.fallback/secrets/x/y";
                 st_value := "fallback"; st_tier := Standard |};
              {| st_name := "/sst/app/dev/secrets/x/y";
                 st_value := "stage"; st_tier := Standard |} ];
     lambdas := []; deployment := []; clock := 1700000000000 |}.

End Fixtures.

(* ===================================================================== *)
(** ** Vocabulary of the statements *)
(* ===================================================================== *)

(** The path [setSecret], [getSecret] and [removeSecret] compute. *)
Definition secretPath (project : Project) (input : SecretInput) : string :=
  Config.pathFor project
    {| pi_id := si_key input; pi_type := "Secret"; pi_prop := "value";
       pi_fallback := si_fallback input |}.

(** The put and the delete that [setSecret] sends for [input]. *)
Definition secretPut (project : Project) (input : SecretInput) : Command unit :=
  PutParameterCommand (secretPath project input) (si_value input)
    (if (4096 <? String.length (si_value input))%nat then Advanced else Standard).

Definition secretDelete (project : Project) (input : SecretInput) : Command unit :=
  DeleteParameterCommand (secretPath project input).

(** The end of [setSecret], after the value is stored: the event is
    published. *)
Definition announce {B : Type} (backend : Backend B) (input : SecretInput) : M B unit :=
  iot_prefix <- send backend UseIOT ;;
  send backend (IotPublish (iot_prefix +:+ "/events") "config.secret.updated"
                  (si_key input)).

(** Requests to the parameter store. *)
Definition is_ssm (c : Call) : bool :=
  match c with
  | Sent (GetParametersByPathCommand _ _) => true
  | Sent (GetParameterCommand _) => true
  | Sent (PutParameterCommand _ _ _) => true
  | Sent (DeleteParameterCommand _) => true
  | _ => false
  end.

(** The function a request to the compute service is about. *)
Definition lambda_target (c : Call) : option string :=
  match c with
  | Sent (GetFunctionConfigurationCommand fn) => Some fn
  | Sent (UpdateFunctionConfigurationCommand fn _) => Some fn
  | _ => None
  end.

(** The function whose configuration a request reads. *)
Definition configuration_read (c : Call) : option string :=
  match c with
  | Sent (GetFunctionConfigurationCommand fn) => Some fn
  | _ => None
  end.

(** The function a restart signal (the configuration update carrying the
    timestamp) is sent to. *)
Definition signal_target (c : Call) : option string :=
  match c with
  | Sent (UpdateFunctionConfigurationCommand fn _) => Some fn
  | _ => None
  end.

(** Whether the loop of [parameters] keeps a scanned parameter, and the
    entry it pushes for it. *)
Definition kept (prefix : string) (p : RawParameter) : bool :=
  negb (Js.strict_eq (type (parse (Name p) prefix)) "secrets").

Definition entry (prefix : string) (p : RawParameter) : Param :=
  {| parsed := parse (Name p) prefix; value := Value p |}.

(** The parameter a get, put or delete names. *)
Definition ssm_name (c : Call) : option string :=
  match c with
  | Sent (GetParameterCommand n) => Some n
  | Sent (PutParameterCommand n _ _) => Some n
  | Sent (DeleteParameterCommand n) => Some n
  | _ => None
  end.

(** The path a listing request scans. *)
Definition scanned_path (c : Call) : option string :=
  match c with
  | Sent (GetParametersByPathCommand path _) => Some path
  | _ => None
  end.

(** The event a publish request carries: topic, event type and name. *)
Definition published (c : Call) : option (string * string * string) :=
  match c with
  | Sent (IotPublish topic event name) => Some (topic, event, name)
  | _ => None
  end.

(** The property name [secrets] files a scanned parameter under, and the
    value the last scanned parameter filed under [key] carries. *)
Definition secretKey (prefix : string) (p : RawParameter) : string :=
  Js.interpolate (id (parse (Name p) prefix)).

Definition lastValue (prefix : string) (scanned : list RawParameter)
    (key : string) : option string :=
  fold_left
    (fun found p => if String.eqb (secretKey prefix p) key then Some (Value p) else found)
    scanned None.

(** The pages the store serves for [prefix] from [token] on, each the
    answer to the request carrying the token of the page before, up to the
    first page without a token; with the requests made and the state of the
    service after the last. *)
Inductive Pages {B : Type} (backend : Backend B) (prefix : string)
  : option string -> B -> list (list RawParameter) -> list Call -> B -> Prop :=
| Pages_last (token : option string) (b b' : B) (results : GetParametersByPathResult) :
    respond backend (GetParametersByPathCommand prefix token) b
      = (Fulfilled results, b') ->
    res_NextToken results = None \/ res_NextToken results = Some "" ->
    Pages backend prefix token b
      [default [] (res_Parameters results)]
      [Sent (GetParametersByPathCommand prefix token)] b'
| Pages_more (token : option string) (b b1 b' : B)
    (results : GetParametersByPathResult) (next : string)
    (pages : list (list RawParameter)) (calls : list Call) :
    respond backend (GetParametersByPathCommand prefix token) b
      = (Fulfilled results, b1) ->
    res_NextToken results = Some next ->
    next <> "" ->
    Pages backend prefix (Some next) b1 pages calls b' ->
    Pages backend prefix token b
      (default [] (res_Parameters results) :: pages)
      (Sent (GetParametersByPathCommand prefix token) :: calls) b'.

Definition access_denied : JsError :=
  {| err_name := "AccessDeniedException";
     err_message := "User is not authorized to perform this action" |}.

(** A store that holds the parameter in the advanced tier and does not let
    it be deleted: every put is refused with the downgrade error, every
    delete with an access-denied error; other requests are fulfilled. *)
Definition stuck_answer {R : Type} (cmd : Command R) : Settled R :=
  match cmd in Command R return Settled R with
  | PutParameterCommand _ _ _ => Rejected InMemory.downgrade_refused
  | DeleteParameterCommand _ => Rejected access_denied
  | other => agree [] other
  end.

Definition stuck_store : Backend unit :=
  {| respond := fun R cmd b => (stuck_answer cmd, b);
     now := fun _ => 1700000000000%Z |}.




(** A string of [n] characters, for inputs of a given length. *)
Fixpoint filler (n : nat) : string :=
  match n with
  | O => EmptyString
  | S n' => String "a" (filler n')
  end.

(* ===================================================================== *)
(** ** Facts about the string primitives *)
(* ===================================================================== *)

Section StringFacts.

Lemma substring_app (p s : string) :
  Js.substring (String.length p) (p +:+ s) = s.
Proof. induction p as [|c p IH]; simpl; [reflexivity | exact IH]. Qed.

Lemma split_not_nil c s : Js.split c s <> [].
Proof.
  destruct s as [|x s]; simpl; [discriminate|].
  destruct (Ascii.eqb x c); [discriminate|].
  destruct (Js.split c s); discriminate.
Qed.

Lemma join_cons sep p q ps :
  Js.join sep (p :: q :: ps) = p +:+ sep +:+ Js.join sep (q :: ps).
Proof. reflexivity. Qed.

(** Joining the parts of a split gives the string back. *)
Lemma join_split (c : ascii) (s : string) :
  Js.join (String c EmptyString) (Js.split c s) = s.
Proof.
  induction s as [|x s IH]; simpl; [reflexivity|].
  destruct (Ascii.eqb x c) eqn:E.
  - apply Ascii.eqb_eq in E; subst x.
    pose proof (split_not_nil c s) as Hne.
    destruct (Js.split c s) as [|q qs]; [contradiction|].
    rewrite join_cons, IH. reflexivity.
  - pose proof (split_not_nil c s) as Hne.
    destruct (Js.split c s) as [|q qs]; [contradiction|].
    destruct qs as [|r rs].
    + simpl in *. now rewrite IH.
    + rewrite join_cons in *. rewrite <- IH. reflexivity.
Qed.

(** A part without the separator, followed by the separator, is the first
    part of the split. *)
Lemma split_app_sep (c : ascii) (a s : string) :
  Js.includes c a = false ->
  Js.split c (a +:+ String c s) = a :: Js.split c s.
Proof.
  induction a as [|x a IH]; simpl; intros H.
  - now rewrite Ascii.eqb_refl.
  - apply orb_false_iff in H as [Hx Ha].
    rewrite Hx, (IH Ha). reflexivity.
Qed.

Lemma replaceAll_idem c d s :
  c <> d -> Js.replaceAll c d (Js.replaceAll c d s) = Js.replaceAll c d s.
Proof.
  intros Hcd. induction s as [|x s IH]; simpl; [reflexivity|].
  rewrite IH. f_equal.
  destruct (Ascii.eqb x c) eqn:E; [|now rewrite E].
  destruct (Ascii.eqb d c) eqn:E'; [|reflexivity].
  apply Ascii.eqb_eq in E'. congruence.
Qed.

Lemma replaceAll_length c d s :
  String.length (Js.replaceAll c d s) = String.length s.
Proof. induction s; simpl; congruence. Qed.

(** After the replacement no [c] is left. *)
Lemma replaceAll_excludes c d s :
  c <> d -> Js.includes c (Js.replaceAll c d s) = false.
Proof.
  intros Hcd. induction s as [|x s IH]; simpl; [reflexivity|].
  rewrite IH, orb_false_r.
  destruct (Ascii.eqb x c) eqn:E; [|exact E].
  apply Ascii.eqb_neq. congruence.
Qed.

(** Characters other than [c] and [d] are neither added nor removed. *)
Lemma replaceAll_includes_other c d e s :
  e <> c -> e <> d ->
  Js.includes e (Js.replaceAll c d s) = Js.includes e s.
Proof.
  intros Hc Hd. induction s as [|x s IH]; simpl; [reflexivity|].
  rewrite IH. f_equal.
  destruct (Ascii.eqb x c) eqn:E; [|reflexivity].
  apply Ascii.eqb_eq in E; subst x.
  apply Ascii.eqb_neq in Hc, Hd.
  rewrite Ascii.eqb_sym in Hc. rewrite Ascii.eqb_sym in Hd.
  now rewrite Hc, Hd.
Qed.

(** The replacement changes a string exactly when it contains [c]. *)
Lemma replaceAll_changes c d s :
  c <> d -> Js.includes c s = true -> Js.replaceAll c d s <> s.
Proof.
  intros Hcd H E.
  pose proof (replaceAll_excludes c d s Hcd) as Hex.
  rewrite E in Hex. congruence.
Qed.

(** Character by character: [c] becomes [d], anything else stays. *)
Lemma replaceAll_get c d s n :
  String.get n (Js.replaceAll c d s)
  = option_map (fun x => if Ascii.eqb x c then d else x) (String.get n s).
Proof.
  revert n. induction s as [|x s IH]; intros n; simpl; [reflexivity|].
  destruct n; simpl; [reflexivity | apply IH].
Qed.

End StringFacts.

Lemma filler_length n : String.length (filler n) = n.
Proof. induction n; simpl; congruence. Qed.

(* ===================================================================== *)
(** ** Paths, identifiers and tiers *)
(* ===================================================================== *)

Lemma dash_is_not_underscore : "-"%char <> "_"%char.
Proof. discriminate. Qed.

Lemma slash_app (s : string) : "/" +:+ s = String "/" s.
Proof. reflexivity. Qed.

Lemma normalizeID_keeps_slash_free i :
  Js.includes "/" i = false -> Js.includes "/" (Config.normalizeID i) = false.
Proof.
  intros H. unfold Config.normalizeID.
  rewrite replaceAll_includes_other; [exact H | discriminate | discriminate].
Qed.

(** C9. [normalizeID] replaces every '-' by '_' and leaves every other
    character in place; it maps my-secret-key to my_secret_key; and applying
    it twice is the same as applying it once. *)
Theorem normalizeID_replaces_and_is_idempotent (s : string) :
  (String.length (Config.normalizeID s) = String.length s
   /\ forall n,
        String.get n (Config.normalizeID s)
        = option_map (fun x => if Ascii.eqb x "-" then "_"%char else x)
            (String.get n s))
  /\ Js.includes "-" (Config.normalizeID s) = false
  /\ Config.normalizeID "my-secret-key" = "my_secret_key"
  /\ Config.normalizeID (Config.normalizeID s) = Config.normalizeID s.
Proof.
  unfold Config.normalizeID. repeat split.
  - apply replaceAll_length.
  - intros n. apply replaceAll_get.
  - apply replaceAll_excludes, dash_is_not_underscore.
  - apply replaceAll_idem, dash_is_not_underscore.
Qed.

(** C10. For a type and an id without '/', and any prop, parsing the path
    that [pathFor] builds, with the prefix of the same scope, gives back the
    type, the normalized id and the prop.  When the id contains '-', the
    normalized id differs from it and builds the same path, so the path
    does not determine the id it was built from. *)
Theorem parse_pathFor_roundtrip
    (project : Project) (ty i p : string) (fb : bool) :
  Js.includes "/" ty = false ->
  Js.includes "/" i = false ->
  parse (Config.pathFor project
           {| pi_id := i; pi_type := ty; pi_prop := p; pi_fallback := fb |})
        (if fb then Config.PREFIX_FALLBACK project else Config.PREFIX_STAGE project)
  = {| type := Some ty; id := Some (Config.normalizeID i); prop := p |}
  /\ (Js.includes "-" i = true ->
      Config.normalizeID i <> i
      /\ Config.pathFor project
           {| pi_id := Config.normalizeID i; pi_type := ty; pi_prop := p;
              pi_fallback := fb |}
         = Config.pathFor project
             {| pi_id := i; pi_type := ty; pi_prop := p; pi_fallback := fb |}).
Proof.
  intros Hty Hi. split.
  - unfold parse, Config.pathFor. cbn [pi_id pi_type pi_prop pi_fallback].
    rewrite substring_app.
    rewrite !slash_app.
    rewrite (split_app_sep "/" ty) by exact Hty.
    rewrite (split_app_sep "/" (Config.normalizeID i))
      by (apply normalizeID_keeps_slash_free, Hi).
    cbn [lookup list_lookup Js.slice drop].
    f_equal. apply (join_split "/").
  - intros Hdash. split.
    + apply replaceAll_changes; [apply dash_is_not_underscore | exact Hdash].
    + unfold Config.pathFor, Config.normalizeID. cbn [pi_id pi_type pi_prop pi_fallback].
      rewrite replaceAll_idem by apply dash_is_not_underscore. reflexivity.
Qed.

Lemma parse_pathFor_roundtrip_witness :
  parse (Config.pathFor InMemory.app
           {| pi_id := "my-key"; pi_type := "Secret"; pi_prop := "a/b";
              pi_fallback := false |})
        (Config.PREFIX_STAGE InMemory.app)
  = {| type := Some "Secret"; id := Some "my_key"; prop := "a/b" |}.
Proof.
  exact (proj1 (parse_pathFor_roundtrip InMemory.app "Secret" "my-key" "a/b" false
                  eq_refl eq_refl)).
Defined.

(** C7. [putParameter] sends one put whose tier is Standard when the value
    has at most 4096 characters and Advanced when it has more; a value of
    exactly 4096 characters goes to Standard and one of 4097 to Advanced. *)
Theorem putParameter_tier_by_length
    {B : Type} (backend : Backend B) (name value : string) (w : World B) :
  trace (putParameter backend name value w).2
  = trace w
    ++ [Sent (PutParameterCommand name value
                (if (String.length value <=? 4096)%nat then Standard else Advanced))]
  /\ trace (putParameter backend name (filler 4096) w).2
     = trace w ++ [Sent (PutParameterCommand name (filler 4096) Standard)]
  /\ trace (putParameter backend name (filler 4097) w).2
     = trace w ++ [Sent (PutParameterCommand name (filler 4097) Advanced)].
Proof.
  assert (Hsend : forall v,
    trace (putParameter backend name v w).2
    = trace w ++ [Sent (PutParameterCommand name v
                          (if (4096 <? String.length v)%nat then Advanced else Standard))]).
  { intros v. unfold putParameter, send.
    destruct (respond backend _ (svc w)) as [r b']. reflexivity. }
  split; [|split].
  - rewrite Hsend.
    destruct (Nat.ltb_spec 4096 (String.length value));
      destruct (Nat.leb_spec (String.length value) 4096); try lia; reflexivity.
  - rewrite Hsend, filler_length. reflexivity.
  - rewrite Hsend, filler_length. reflexivity.
Qed.

(* ===================================================================== *)
(** ** Writing a secret *)
(* ===================================================================== *)

Section SecretWrites.

Context {B : Type} (backend : Backend B) (project : Project).

Lemma send_eq {R} (c : Command R) (w : World B) r b' :
  respond backend c (svc w) = (r, b') ->
  send backend c w
  = (match r with Fulfilled x => Return x | Rejected e => Throw e end,
     {| svc := b'; trace := trace w ++ [Sent c] |}).
Proof. intros H. unfold send. rewrite H. reflexivity. Qed.

Lemma setSecret_unfold (input : SecretInput) :
  Config.setSecret backend project input
  = (try_catch (send backend (secretPut project input))
       (fun e =>
          if negb (Config.wasAdvanced e) then throw e
          else send backend (secretDelete project input) ;;;
               send backend (secretPut project input)) ;;;
     announce backend input).
Proof. reflexivity. Qed.

Lemma send_trace {R} (c : Command R) (w : World B) :
  trace (send backend c w).2 = trace w ++ [Sent c].
Proof. unfold send. destruct (respond backend c (svc w)). reflexivity. Qed.

(** Publishing the event sends nothing to the parameter store. *)
Lemma announce_no_ssm (input : SecretInput) (w : World B) :
  List.filter is_ssm (trace (announce backend input w).2)
  = List.filter is_ssm (trace w).
Proof.
  unfold announce, bind.
  pose proof (send_trace UseIOT w) as Hiot.
  destruct (send backend UseIOT w) as [[prefix|e1|] w1]; cbn [snd] in *.
  - rewrite send_trace, Hiot, !List.filter_app. cbn. now rewrite !app_nil_r.
  - rewrite Hiot, List.filter_app. cbn. now rewrite app_nil_r.
  - rewrite Hiot, List.filter_app. cbn. now rewrite app_nil_r.
Qed.

(** When the delete itself is refused, its error is what [setSecret]
    throws, and the put is not retried. *)
Lemma setSecret_delete_refused (input : SecretInput) (w : World B) e b1 e2 b2 :
  respond backend (secretPut project input) (svc w) = (Rejected e, b1) ->
  Config.wasAdvanced e = true ->
  respond backend (secretDelete project input) b1 = (Rejected e2, b2) ->
  Config.setSecret backend project input w
  = (Throw e2,
     {| svc := b2;
        trace := (trace w ++ [Sent (secretPut project input)])
                 ++ [Sent (secretDelete project input)] |}).
Proof.
  intros Hput Hadv Hdel. rewrite setSecret_unfold.
  unfold bind, try_catch. rewrite (send_eq _ _ _ _ Hput), Hadv. cbn [negb].
  unfold bind, send. cbn [svc trace]. rewrite Hdel. reflexivity.
Qed.

(** C3, as the code has it. When the put of [setSecret] is refused with
    the tier downgrade error, [setSecret] sends one delete of the same
    path.  When the store accepts the delete, one more put follows, so
    that the requests to the store are exactly put, delete, put; the first
    error is dropped: [setSecret] goes on to publish the event when the
    second put is accepted, and throws only what the second put itself
    throws.  When the store refuses the delete, [setSecret] throws the
    error of the delete after the put and the delete, and retries
    nothing.  When the put is refused with any other error, that error is
    thrown as it is, after the one put and nothing else. *)
Theorem setSecret_downgrade_recovery
    (input : SecretInput) (w : World B) (e : JsError) (b1 : B) :
  respond backend (secretPut project input) (svc w) = (Rejected e, b1) ->
  (Config.wasAdvanced e = true ->
   forall b2,
     respond backend (secretDelete project input) b1 = (Fulfilled tt, b2) ->
     let sent := trace w ++ [Sent (secretPut project input);
                             Sent (secretDelete project input);
                             Sent (secretPut project input)] in
     List.filter is_ssm (trace (Config.setSecret backend project input w).2)
     = List.filter is_ssm sent
     /\ Config.setSecret backend project input w
        = match respond backend (secretPut project input) b2 with
          | (Fulfilled _, b3) => announce backend input {| svc := b3; trace := sent |}
          | (Rejected e', b3) => (Throw e', {| svc := b3; trace := sent |})
          end)
  /\ (Config.wasAdvanced e = true ->
      forall e2 b2,
        respond backend (secretDelete project input) b1 = (Rejected e2, b2) ->
        Config.setSecret backend project input w
        = (Throw e2,
           {| svc := b2;
              trace := trace w ++ [Sent (secretPut project input);
                                   Sent (secretDelete project input)] |}))
  /\ (Config.wasAdvanced e = false ->
      Config.setSecret backend project input w
      = (Throw e, {| svc := b1; trace := trace w ++ [Sent (secretPut project input)] |})).
Proof.
  intros Hput. split; [|split].
  - intros Hadv b2 Hdel sent.
    assert (Hrun : Config.setSecret backend project input w
        = match respond backend (secretPut project input) b2 with
          | (Fulfilled _, b3) => announce backend input {| svc := b3; trace := sent |}
          | (Rejected e', b3) => (Throw e', {| svc := b3; trace := sent |})
          end).
    { rewrite setSecret_unfold.
      unfold bind, try_catch. rewrite (send_eq _ _ _ _ Hput), Hadv. cbn [negb].
      unfold bind, send. cbn [svc trace]. rewrite Hdel. cbn [svc trace].
      subst sent. rewrite <- !app_assoc. cbn [app].
      destruct (respond backend (secretPut project input) b2) as [[[]|e'] b3];
        reflexivity. }
    split; [|exact Hrun].
    rewrite Hrun.
    destruct (respond backend (secretPut project input) b2) as [[[]|e'] b3];
      [|reflexivity].
    apply announce_no_ssm.
  - intros Hadv e2 b2 Hdel.
    rewrite (setSecret_delete_refused input w e b1 e2 b2 Hput Hadv Hdel).
    now rewrite <- app_assoc.
  - intros Hother. rewrite setSecret_unfold.
    unfold bind, try_catch. rewrite (send_eq _ _ _ _ Hput), Hother. reflexivity.
Qed.

End SecretWrites.

Lemma setSecret_downgrade_recovery_witness :
  (Config.setSecret InMemory.backend InMemory.app Fixtures.my_secret
     (InMemory.start Fixtures.advanced_cloud)).1 = Return tt
  /\ trace (Config.setSecret InMemory.backend InMemory.app Fixtures.my_secret
              (InMemory.start Fixtures.advanced_cloud)).2
     = [ Sent (PutParameterCommand "/sst/app/dev/Secret/my_key/value" "hunter2" Standard);
         Sent (DeleteParameterCommand "/sst/app/dev/Secret/my_key/value");
         Sent (PutParameterCommand "/sst/app/dev/Secret/my_key/value" "hunter2" Standard);
         Sent UseIOT;
         Sent (IotPublish "/sst/app/dev/events" "config.secret.updated" "my-key") ]
  /\ Config.setSecret stuck_store InMemory.app Fixtures.my_secret Fixtures.nowhere
     = (Throw access_denied,
        {| svc := tt;
           trace := [ Sent (PutParameterCommand "/sst/app/dev/Secret/my_key/value"
                              "hunter2" Standard);
                      Sent (DeleteParameterCommand "/sst/app/dev/Secret/my_key/value") ] |})
  /\ Config.setSecret (refusing access_denied) InMemory.app Fixtures.my_secret
       Fixtures.nowhere
     = (Throw access_denied,
        {| svc := tt;
           trace := [ Sent (PutParameterCommand "/sst/app/dev/Secret/my_key/value"
                              "hunter2" Standard) ] |}).
Proof.
  pose proof (setSecret_downgrade_recovery InMemory.backend InMemory.app
                Fixtures.my_secret (InMemory.start Fixtures.advanced_cloud)
                InMemory.downgrade_refused Fixtures.advanced_cloud eq_refl) as [Hrec _].
  specialize (Hrec eq_refl (InMemory.with_ssm Fixtures.advanced_cloud []) eq_refl).
  destruct Hrec as [_ Hrun].
  split; [|split; [|split]].
  - rewrite Hrun. reflexivity.
  - rewrite Hrun. reflexivity.
  - exact (proj1 (proj2 (setSecret_downgrade_recovery stuck_store InMemory.app
                           Fixtures.my_secret Fixtures.nowhere
                           InMemory.downgrade_refused tt eq_refl))
             eq_refl access_denied tt eq_refl).
  - exact (proj2 (proj2 (setSecret_downgrade_recovery (refusing access_denied)
                           InMemory.app Fixtures.my_secret Fixtures.nowhere
                           access_denied tt eq_refl))
             eq_refl).
Defined.

(** C3 as stated fails: with a store that refuses the put with the
    downgrade error and then refuses the delete, [setSecret] sends the
    put and the delete and throws; no put is retried. *)
Lemma setSecret_refused_delete_retries_nothing :
  Config.wasAdvanced InMemory.downgrade_refused = true
  /\ Config.setSecret stuck_store InMemory.app Fixtures.my_secret Fixtures.nowhere
     = (Throw access_denied,
        {| svc := tt;
           trace := [ Sent (PutParameterCommand "/sst/app/dev/Secret/my_key/value"
                              "hunter2" Standard);
                      Sent (DeleteParameterCommand "/sst/app/dev/Secret/my_key/value") ] |}).
Proof. split; reflexivity. Qed.

(* ===================================================================== *)
(** ** Restarting one function *)
(* ===================================================================== *)

Section RestartFunction.

Context {B : Type} (backend : Backend B).

(** [restartFunction] always returns: it asks for the configuration of
    [arn], and sends at most one update, to [arn] as well. *)
Lemma restartFunction_returns (fn : string) (w : World B) :
  exists (r : bool) (w' : World B) (updates : list Call),
    restartFunction backend fn w = (Return r, w')
    /\ trace w' = trace w ++ Sent (GetFunctionConfigurationCommand fn) :: updates
    /\ Forall (fun c => signal_target c = Some fn) updates.
Proof.
  unfold restartFunction, try_catch, bind, send, Date_now. cbn [svc trace].
  destruct (respond backend (GetFunctionConfigurationCommand fn) (svc w))
    as [[config|e] b1]; cbn [svc trace].
  - match goal with
    | |- context [respond backend ?c b1] =>
        destruct (respond backend c b1) as [[[]|e] b2]
    end.
    + eexists true, _, [_]. split; [reflexivity|]. split.
      * cbn [trace]. rewrite <- app_assoc. reflexivity.
      * repeat constructor.
    + destruct (_ && _);
        (eexists false, _, [_]; split; [reflexivity|]; split;
         [cbn [trace]; rewrite <- app_assoc; reflexivity | repeat constructor]).
  - destruct (_ && _);
      (eexists false, _, []; split; [reflexivity|]; split;
       [reflexivity | constructor]).
Qed.

End RestartFunction.

(** C5. [restartFunction] never throws, whatever the compute service
    answers: every rejection of the get or of the update is caught and the
    function returns without a value.  With a service that rejects the
    request with an access-denied error, which is not the not-found error,
    the call returns (false stands for undefined) instead of throwing. *)
Theorem restartFunction_swallows_every_failure :
  (forall (B : Type) (backend : Backend B) (fn : string) (w : World B),
      exists (r : bool) (w' : World B), restartFunction backend fn w = (Return r, w'))
  /\ restartFunction (refusing access_denied) "arn:aws:lambda:us-east-1:1:function:api"
       Fixtures.nowhere
     = (Return false,
        {| svc := tt;
           trace := [ Sent (GetFunctionConfigurationCommand
                              "arn:aws:lambda:us-east-1:1:function:api") ] |}).
Proof.
  split; [|reflexivity].
  intros B backend fn w.
  destruct (restartFunction_returns backend fn w) as (r & w' & _ & H & _).
  eauto.
Qed.

(* ===================================================================== *)
(** ** Listing parameters and assembling the environment *)
(* ===================================================================== *)

Section FromEntries.

Implicit Types (entries : list (string * string)) (o : gmap string string).

Lemma fold_insert_other entries o k :
  ~ In k (map fst entries) ->
  fold_left (fun o kv => <[kv.1 := kv.2]> o) entries o !! k = o !! k.
Proof.
  revert o. induction entries as [|[k0 v0] entries IH]; intros o Hk; [reflexivity|].
  cbn [fold_left]. rewrite IH.
  - cbn [fst snd]. apply lookup_insert_ne. intros ->. apply Hk. now left.
  - intros Hin. apply Hk. now right.
Qed.

Lemma fold_insert_last entries o k v :
  In (k, v) entries ->
  (forall v', In (k, v') entries -> v' = v) ->
  fold_left (fun o kv => <[kv.1 := kv.2]> o) entries o !! k = Some v.
Proof.
  revert o. induction entries as [|[k0 v0] entries IH]; intros o Hin Hall; [destruct Hin|].
  cbn [fold_left fst snd].
  destruct (in_dec string_dec k (map fst entries)) as [Hlater|Hnot].
  - apply in_map_iff in Hlater as ([k1 v1] & Hk1 & Hin1). cbn in Hk1. subst k1.
    assert (v1 = v) as -> by (apply Hall; now right).
    apply IH; [exact Hin1|]. intros v' Hv'. apply Hall. now right.
  - rewrite fold_insert_other by exact Hnot.
    destruct Hin as [Heq|Hin].
    + injection Heq as -> ->. apply lookup_insert_eq.
    + exfalso. apply Hnot. apply in_map_iff. exists (k, v). split; [reflexivity|exact Hin].
Qed.

(** Last write wins: the entries for [k] in the later part decide. *)
Lemma fromEntries_later_wins (earlier later : list (string * string)) k v :
  In (k, v) later ->
  (forall v', In (k, v') later -> v' = v) ->
  Js.fromEntries (earlier ++ later) !! k = Some v.
Proof.
  intros Hin Hall. unfold Js.fromEntries. rewrite fold_left_app.
  now apply fold_insert_last.
Qed.

End FromEntries.

Section Collect.

Variable prefix : string.

Lemma collect_filter_map scanned result :
  Config.collect prefix scanned result
  = result ++ map (entry prefix) (List.filter (kept prefix) scanned).
Proof.
  revert result. induction scanned as [|p scanned IH]; intros result.
  - cbn. now rewrite app_nil_r.
  - unfold Config.collect in *. cbn [fold_left List.filter]. rewrite IH.
    unfold kept at 2.
    destruct (Js.strict_eq (type (parse (Name p) prefix)) "secrets"); cbn [negb].
    + reflexivity.
    + cbn [map]. rewrite <- app_assoc. reflexivity.
Qed.

Lemma collect_In scanned q :
  In q (Config.collect prefix scanned [])
  <-> exists p, In p scanned /\ kept prefix p = true /\ q = entry prefix p.
Proof.
  rewrite collect_filter_map. cbn [app]. rewrite in_map_iff. split.
  - intros (p & <- & Hp). apply filter_In in Hp as [Hin Hk]. eauto.
  - intros (p & Hin & Hk & ->). exists p. split; [reflexivity|].
    apply filter_In. auto.
Qed.

(** What the loop does skip: the entries whose type is the word secrets. *)
Lemma collect_skips_secrets scanned q :
  In q (Config.collect prefix scanned []) -> type (parsed q) <> Some "secrets".
Proof.
  intros (p & _ & Hk & ->)%collect_In. unfold kept in Hk. cbn [parsed entry].
  destruct (type (parse (Name p) prefix)) as [t|]; [|discriminate].
  cbn in Hk. intros [= ->]. discriminate.
Qed.

End Collect.

Section EnvEntries.

Lemma envEntries_cons p ps es :
  Config.envEntries (p :: ps) = Return es ->
  exists k es', Config.envFor (parsed p) = Return k
                /\ Config.envEntries ps = Return es'
                /\ es = (k, value p) :: es'.
Proof.
  cbn [Config.envEntries].
  destruct (Config.envFor (parsed p)) as [k|e|]; try discriminate.
  destruct (Config.envEntries ps) as [es'|e|]; try discriminate.
  intros [= <-]. eauto.
Qed.

Lemma envEntries_app ps1 ps2 es :
  Config.envEntries (ps1 ++ ps2) = Return es ->
  exists es1 es2, Config.envEntries ps1 = Return es1
                  /\ Config.envEntries ps2 = Return es2
                  /\ es = es1 ++ es2.
Proof.
  revert es. induction ps1 as [|p ps1 IH]; intros es H.
  - exists [], es. auto.
  - cbn [app] in H. apply envEntries_cons in H as (k & es' & Hk & Hes' & ->).
    destruct (IH _ Hes') as (es1 & es2 & H1 & H2 & ->).
    exists ((k, value p) :: es1), es2. cbn [Config.envEntries].
    rewrite Hk, H1. auto.
Qed.

Lemma envEntries_In_param ps es p :
  Config.envEntries ps = Return es -> In p ps ->
  exists k, Config.envFor (parsed p) = Return k /\ In (k, value p) es.
Proof.
  revert es. induction ps as [|p0 ps IH]; intros es H Hin; [destruct Hin|].
  apply envEntries_cons in H as (k & es' & Hk & Hes' & ->).
  destruct Hin as [->|Hin].
  - exists k. split; [exact Hk | now left].
  - destruct (IH _ Hes' Hin) as (k' & Hk' & Hin'). exists k'. split; [exact Hk' | now right].
Qed.

Lemma envEntries_In_entry ps es k v :
  Config.envEntries ps = Return es -> In (k, v) es ->
  exists p, In p ps /\ Config.envFor (parsed p) = Return k /\ value p = v.
Proof.
  revert es. induction ps as [|p0 ps IH]; intros es H Hin.
  - cbn in H. injection H as <-. destruct Hin.
  - apply envEntries_cons in H as (k0 & es' & Hk & Hes' & ->).
    destruct Hin as [Heq|Hin].
    + injection Heq as Hk0 Hv. subst k0. exists p0. split; [now left | auto].
    + destruct (IH _ Hes' Hin) as (p & Hp & Hkp & Hv).
      exists p. split; [now right | auto].
Qed.

End EnvEntries.

Section Listing.

Context {B : Type} (backend : Backend B) (project : Project).

Lemma scanParameters_step fuel prefix token :
  scanParameters backend (S fuel) prefix token
  = (results <- send backend (GetParametersByPathCommand prefix token) ;;
     match res_NextToken results with
     | None => ret (default [] (res_Parameters results))
     | Some next =>
         if String.eqb next "" then ret (default [] (res_Parameters results))
         else rest <- scanParameters backend fuel prefix (Some next) ;;
              ret (default [] (res_Parameters results) ++ rest)
     end).
Proof. reflexivity. Qed.

(** A scan that returns does so with any larger bound on the pages, and
    returns the same. *)
Lemma scanParameters_more_fuel fuel prefix token (w w' : World B) scanned :
  scanParameters backend fuel prefix token w = (Return scanned, w') ->
  scanParameters backend (S fuel) prefix token w = (Return scanned, w').
Proof.
  revert token w w' scanned.
  induction fuel as [|fuel IH]; intros token w w' scanned H; [discriminate H|].
  rewrite scanParameters_step in H. rewrite scanParameters_step.
  unfold bind at 1 in H. unfold bind at 1.
  destruct (send backend (GetParametersByPathCommand prefix token) w)
    as [[results|e|] w1]; try discriminate H.
  destruct (res_NextToken results) as [next|]; [|exact H].
  destruct (String.eqb next ""); [exact H|].
  unfold bind at 1 in H. unfold bind at 1.
  destruct (scanParameters backend fuel prefix (Some next) w1)
    as [[rest|e|] w2] eqn:Hrest; try discriminate H.
  rewrite (IH _ _ _ _ Hrest). exact H.
Qed.

(** [parameters] is the fallback scan followed by the stage scan, each
    filtered by the loop body. *)
Lemma parameters_of_scans fuel (w w1 w2 : World B) fromFallback fromStage :
  scanParameters backend fuel (Config.PREFIX_FALLBACK project) None w
    = (Return fromFallback, w1) ->
  scanParameters backend fuel (Config.PREFIX_STAGE project) None w1
    = (Return fromStage, w2) ->
  Config.parameters backend project fuel w
  = (Return (Config.collect (Config.PREFIX_FALLBACK project) fromFallback []
             ++ Config.collect (Config.PREFIX_STAGE project) fromStage []), w2).
Proof.
  intros Hfb Hst. unfold Config.parameters, bind. rewrite Hfb, Hst. unfold ret.
  rewrite (collect_filter_map _ fromStage (Config.collect _ _ _)).
  rewrite (collect_filter_map _ fromStage []). reflexivity.
Qed.

(** The last element of a list that passes a test. *)
Lemma last_passing {A} (P : A -> bool) (l : list A) (x : A) :
  In x l -> P x = true ->
  exists before q after,
    l = before ++ q :: after /\ P q = true /\ Forall (fun y => P y = false) after.
Proof.
  revert x. induction l as [|a l IH]; intros x Hin Hx; [destruct Hin|].
  destruct (existsb P l) eqn:Hlater.
  - apply existsb_exists in Hlater as (y & Hy & HPy).
    destruct (IH y Hy HPy) as (before & q & after & -> & Hq & Hafter).
    exists (a :: before), q, after. auto.
  - assert (Hnone : Forall (fun y => P y = false) l).
    { apply List.Forall_forall. intros y Hy.
      destruct (P y) eqn:HPy; [|reflexivity].
      assert (existsb P l = true) by (apply existsb_exists; eauto). congruence. }
    destruct Hin as [->|Hin].
    + exists [], x, l. auto.
    + rewrite List.Forall_forall in Hnone. rewrite (Hnone x Hin) in Hx. discriminate.
Qed.

(** C4, as the code has it. When the fallback scan and the stage scan both
    hold a parameter with the same type, id and prop, of a type other
    than secrets, the map that [env] returns has under its environment
    name the value of a parameter of the stage scan: the last one, in scan
    order, that [parameters] lists and whose environment name is that
    name.  It is the stage value of the pair itself, and so not its
    fallback value when the two differ, when the stage scan holds no
    other value under that environment name. *)
Theorem env_stage_overrides_fallback
    fuel (w w1 w2 w' : World B) fromFallback fromStage
    (pf ps : RawParameter) (t : Parsed) (key : string)
    (m : gmap string string) :
  scanParameters backend fuel (Config.PREFIX_FALLBACK project) None w
    = (Return fromFallback, w1) ->
  scanParameters backend fuel (Config.PREFIX_STAGE project) None w1
    = (Return fromStage, w2) ->
  In pf fromFallback ->
  In ps fromStage ->
  parse (Name pf) (Config.PREFIX_FALLBACK project) = t ->
  parse (Name ps) (Config.PREFIX_STAGE project) = t ->
  Js.strict_eq (type t) "secrets" = false ->
  Config.envFor t = Return key ->
  Config.env backend project fuel w = (Return m, w') ->
  (exists before q after,
      fromStage = before ++ q :: after
      /\ kept (Config.PREFIX_STAGE project) q = true
      /\ Config.envFor (parse (Name q) (Config.PREFIX_STAGE project)) = Return key
      /\ (forall q', In q' after ->
            kept (Config.PREFIX_STAGE project) q' = true ->
            Config.envFor (parse (Name q') (Config.PREFIX_STAGE project))
            <> Return key)
      /\ m !! key = Some (Value q))
  /\ ((forall q, In q fromStage ->
         kept (Config.PREFIX_STAGE project) q = true ->
         Config.envFor (parse (Name q) (Config.PREFIX_STAGE project)) = Return key ->
         Value q = Value ps) ->
      m !! key = Some (Value ps)
      /\ (Value pf <> Value ps -> m !! key <> Some (Value pf))).
Proof.
  intros Hfb Hst Hpf Hps Htf Hts Hlisted Hkey Henv.
  set (stage := Config.PREFIX_STAGE project) in *.
  set (named := fun q : RawParameter =>
                  kept stage q
                  && match Config.envFor (parse (Name q) stage) with
                     | Return k => String.eqb k key
                     | _ => false
                     end).
  assert (Hnamed : forall q, named q = true
                             <-> kept stage q = true
                                 /\ Config.envFor (parse (Name q) stage) = Return key).
  { intros q. unfold named. rewrite andb_true_iff.
    destruct (Config.envFor (parse (Name q) stage)) as [k| |].
    - rewrite String.eqb_eq. split; intros [? H]; split; congruence.
    - split; intros [_ H]; discriminate H.
    - split; intros [_ H]; discriminate H. }
  assert (Hps' : named ps = true).
  { apply Hnamed. unfold kept. fold stage. rewrite Hts, Hlisted, Hkey. auto. }
  destruct (last_passing named fromStage ps Hps Hps')
    as (before & q & after & Hsplit & Hq & Hafter).
  apply Hnamed in Hq as [Hqkept Hqkey].
  assert (Hlast : forall q', In q' after -> kept stage q' = true ->
                    Config.envFor (parse (Name q') stage) <> Return key).
  { intros q' Hq' Hk Hname. rewrite List.Forall_forall in Hafter.
    assert (named q' = true) as Hyes by (apply Hnamed; auto).
    rewrite (Hafter q' Hq') in Hyes. discriminate. }
  assert (Hm : m !! key = Some (Value q)).
  { unfold Config.env, bind in Henv.
    rewrite (parameters_of_scans _ _ _ _ _ _ Hfb Hst) in Henv.
    unfold lift in Henv.
    destruct (Config.envEntries _) as [entries| |] eqn:Hentries; try discriminate.
    unfold ret in Henv. injection Henv as <- _.
    apply envEntries_app in Hentries as (es1 & es2 & _ & Hes2 & ->).
    fold stage in Hes2.
    rewrite collect_filter_map, Hsplit, List.filter_app in Hes2.
    cbn [app List.filter] in Hes2. rewrite Hqkept, map_app in Hes2. cbn [map] in Hes2.
    apply envEntries_app in Hes2 as (esb & esr & _ & Hesr & ->).
    apply envEntries_cons in Hesr as (k & esa & Hk & Hesa & ->).
    cbn [parsed value entry] in Hk. rewrite Hqkey in Hk. injection Hk as <-.
    unfold Js.spread. apply lookup_union_Some_l.
    rewrite app_assoc. apply fromEntries_later_wins; [now left|].
    intros v' [Hhead|Hin]; [now injection Hhead as <-|].
    destruct (envEntries_In_entry _ _ _ _ Hesa Hin) as (p & Hp & Hkp & _).
    apply in_map_iff in Hp as (q' & <- & Hq'). apply filter_In in Hq' as [Hq' Hk'].
    cbn [parsed entry] in Hkp. destruct (Hlast q' Hq' Hk' Hkp). }
  split.
  - exists before, q, after. auto.
  - intros Huniq.
    assert (Hsame : Value q = Value ps).
    { apply Huniq; [|exact Hqkept|exact Hqkey]. rewrite Hsplit. apply in_elt. }
    rewrite Hm, Hsame. split; [reflexivity | congruence].
Qed.

(** C1, as the code has it. Whatever the two scans return, [parameters]
    returns the scanned parameters whose parsed type is not the word
    secrets, those of the fallback scan first: no returned entry has the
    type secrets, and every scanned parameter of type Secret, the type
    [setSecret] writes, is returned. *)
Theorem parameters_skips_only_the_secrets_type
    fuel (w w1 w2 : World B) fromFallback fromStage :
  scanParameters backend fuel (Config.PREFIX_FALLBACK project) None w
    = (Return fromFallback, w1) ->
  scanParameters backend fuel (Config.PREFIX_STAGE project) None w1
    = (Return fromStage, w2) ->
  exists listed,
    Config.parameters backend project fuel w = (Return listed, w2)
    /\ listed
       = map (entry (Config.PREFIX_FALLBACK project))
           (List.filter (kept (Config.PREFIX_FALLBACK project)) fromFallback)
         ++ map (entry (Config.PREFIX_STAGE project))
              (List.filter (kept (Config.PREFIX_STAGE project)) fromStage)
    /\ (forall q, In q listed -> type (parsed q) <> Some "secrets")
    /\ (forall p, In p fromFallback ->
          type (parse (Name p) (Config.PREFIX_FALLBACK project)) = Some "Secret" ->
          In (entry (Config.PREFIX_FALLBACK project) p) listed)
    /\ (forall p, In p fromStage ->
          type (parse (Name p) (Config.PREFIX_STAGE project)) = Some "Secret" ->
          In (entry (Config.PREFIX_STAGE project) p) listed).
Proof.
  intros Hfb Hst. eexists. split; [exact (parameters_of_scans _ _ _ _ _ _ Hfb Hst)|].
  split; [now rewrite !collect_filter_map|].
  split; [|split].
  - intros q [Hq|Hq]%in_app_or; eapply collect_skips_secrets; exact Hq.
  - intros p Hp Hty. apply in_or_app. left. apply collect_In.
    exists p. split; [exact Hp|]. split; [|reflexivity]. unfold kept. now rewrite Hty.
  - intros p Hp Hty. apply in_or_app. right. apply collect_In.
    exists p. split; [exact Hp|]. split; [|reflexivity]. unfold kept. now rewrite Hty.
Qed.

End Listing.

Lemma env_stage_overrides_fallback_witness :
  exists m w',
    Config.env InMemory.backend InMemory.app 3 (InMemory.start Fixtures.layered_cloud)
    = (Return m, w')
    /\ m !! "SST_Parameter_host_db" = Some "stage.example".
Proof.
  eexists _, _. split; [reflexivity|].
  refine (proj1 (proj2 (env_stage_overrides_fallback InMemory.backend InMemory.app 3
            (InMemory.start Fixtures.layered_cloud) _ _ _
            [InMemory.raw Fixtures.fallback_host]
            [InMemory.raw Fixtures.stage_host; InMemory.raw Fixtures.stage_port]
            (InMemory.raw Fixtures.fallback_host) (InMemory.raw Fixtures.stage_host)
            {| type := Some "Parameter"; id := Some "db"; prop := "host" |}
            "SST_Parameter_host_db" _
            eq_refl eq_refl _ _ eq_refl eq_refl eq_refl eq_refl eq_refl) _)).
  - now left.
  - now left.
  - intros q [<-|[<-|[]]] _ Hq; [reflexivity | discriminate Hq].
Defined.

(** C4 as stated fails.  With Parameter/x/a_b in both scopes and
    Parameter/b_x/a later in the stage scope, the two stage parameters
    have the same environment name, and the map has the value of the
    second under it, not the stage value of the pair.  With secrets/x/y in
    both scopes, the map has nothing under the environment name of the
    pair. *)
Lemma env_misses_the_stage_value_of_the_pair :
  (parse "/sst/app/.fallback/Parameter/x/a_b" (Config.PREFIX_FALLBACK InMemory.app)
   = parse "/sst/app/dev/Parameter/x/a_b" (Config.PREFIX_STAGE InMemory.app)
   /\ Config.envFor (parse "/sst/app/dev/Parameter/x/a_b"
                       (Config.PREFIX_STAGE InMemory.app))
      = Return "SST_Parameter_a_b_x"
   /\ exists m w',
        Config.env InMemory.backend InMemory.app 3
          (InMemory.start Fixtures.colliding_cloud) = (Return m, w')
        /\ m !! "SST_Parameter_a_b_x" = Some "INTRUDER"
        /\ m !! "SST_Parameter_a_b_x" <> Some "stage")
  /\ (parse "/sst/app/.fallback/secrets/x/y" (Config.PREFIX_FALLBACK InMemory.app)
      = parse "/sst/app/dev/secrets/x/y" (Config.PREFIX_STAGE InMemory.app)
      /\ Config.envFor (parse "/sst/app/dev/secrets/x/y"
                          (Config.PREFIX_STAGE InMemory.app))
         = Return "SST_secrets_y_x"
      /\ exists m w',
           Config.env InMemory.backend InMemory.app 3
             (InMemory.start Fixtures.skipped_cloud) = (Return m, w')
           /\ m !! "SST_secrets_y_x" = None).
Proof.
  split; (split; [reflexivity|]; split; [reflexivity|]; eexists _, _;
          split; [reflexivity|]).
  - split; [reflexivity | discriminate].
  - reflexivity.
Qed.

Lemma parameters_skips_only_the_secrets_type_witness :
  exists listed w',
    Config.parameters InMemory.backend InMemory.app 3
      (InMemory.start Fixtures.secret_cloud) = (Return listed, w')
    /\ In {| parsed := {| type := Some "Secret"; id := Some "my_key"; prop := "value" |};
             value := "hunter2" |} listed.
Proof.
  destruct (parameters_skips_only_the_secrets_type InMemory.backend InMemory.app 3
              (InMemory.start Fixtures.secret_cloud) _ _
              [] [InMemory.raw Fixtures.stored_secret] eq_refl eq_refl)
    as (listed & Hrun & _ & _ & _ & Hstage).
  eexists listed, _. split; [exact Hrun|].
  apply (Hstage (InMemory.raw Fixtures.stored_secret)); [now left | reflexivity].
Defined.

(** C1 as stated fails: after [setSecret] has stored a secret in an empty
    store, [parameters] returns that secret, type Secret, with its
    value. *)
Lemma parameters_lists_the_stored_secret :
  (Config.parameters InMemory.backend InMemory.app 3
     (Config.setSecret InMemory.backend InMemory.app Fixtures.my_secret
        (InMemory.start Fixtures.empty_cloud)).2).1
  = Return [ {| parsed := {| type := Some "Secret"; id := Some "my_key";
                             prop := "value" |};
                value := "hunter2" |} ].
Proof. reflexivity. Qed.

(* ===================================================================== *)
(** ** Selecting the resources to restart *)
(* ===================================================================== *)

Section Buckets.

Variable keys : list string.
Variable metadata : Stacks.Metadata.

Lemma placeholder_or_deployed c : Config.isDeployed c = negb (Config.isPlaceholder c).
Proof. unfold Config.isDeployed, Config.isPlaceholder. now destruct (Stacks.mode _). Qed.

Lemma filter_split {A} (f : A -> bool) (l : list A) :
  Permutation l (List.filter f l ++ List.filter (fun x => negb (f x)) l).
Proof.
  induction l as [|x l IH]; [constructor|].
  cbn [List.filter]. destruct (f x); cbn [negb app].
  - now constructor.
  - now apply Permutation_cons_app.
Qed.

Lemma in_placeholder c :
  In c (Config.siteDataPlaceholder keys metadata)
  <-> In c (Config.siteData keys metadata) /\ Config.isPlaceholder c = true.
Proof. unfold Config.siteDataPlaceholder. apply filter_In. Qed.

Lemma in_prefetch c :
  In c (Config.siteDataWithPrefetchSecrets keys metadata)
  <-> In c (Config.siteData keys metadata)
      /\ Config.isDeployed c = true /\ Config.hasPrefetch c = true.
Proof.
  unfold Config.siteDataWithPrefetchSecrets. rewrite !filter_In. tauto.
Qed.

Lemma in_edge c :
  In c (Config.siteDataEdge keys metadata)
  <-> In c (Config.siteData keys metadata)
      /\ Config.isDeployed c = true /\ Config.hasPrefetch c = false
      /\ Config.isEdge c = true.
Proof.
  unfold Config.siteDataEdge. rewrite !filter_In, negb_true_iff. tauto.
Qed.

Lemma in_regional c :
  In c (Config.siteDataRegional keys metadata)
  <-> In c (Config.siteData keys metadata)
      /\ Config.isDeployed c = true /\ Config.hasPrefetch c = false
      /\ Config.isEdge c = false.
Proof.
  unfold Config.siteDataRegional. rewrite !filter_In, !negb_true_iff. tauto.
Qed.

(** Every matching site is in exactly one of the four groups. *)
Lemma site_in_exactly_one_bucket c :
  In c (Config.siteData keys metadata) ->
  let P := In c (Config.siteDataPlaceholder keys metadata) in
  let F := In c (Config.siteDataWithPrefetchSecrets keys metadata) in
  let E := In c (Config.siteDataEdge keys metadata) in
  let R := In c (Config.siteDataRegional keys metadata) in
  (P /\ ~ F /\ ~ E /\ ~ R) \/ (~ P /\ F /\ ~ E /\ ~ R)
  \/ (~ P /\ ~ F /\ E /\ ~ R) \/ (~ P /\ ~ F /\ ~ E /\ R).
Proof.
  intros Hin. cbv zeta.
  rewrite in_placeholder, in_prefetch, in_edge, in_regional.
  rewrite placeholder_or_deployed.
  destruct (Config.isPlaceholder c), (Config.hasPrefetch c), (Config.isEdge c);
    cbn [negb]; intuition congruence.
Qed.

(** The four groups together are the matching sites, each as often as it
    occurs. *)
Lemma site_buckets_cover :
  Permutation (Config.siteData keys metadata)
    (Config.siteDataPlaceholder keys metadata
     ++ Config.siteDataWithPrefetchSecrets keys metadata
     ++ Config.siteDataEdge keys metadata
     ++ Config.siteDataRegional keys metadata).
Proof.
  unfold Config.siteDataPlaceholder, Config.siteDataWithPrefetchSecrets,
    Config.siteDataEdge, Config.siteDataRegional.
  set (sd := Config.siteData keys metadata).
  rewrite (filter_split Config.isPlaceholder sd) at 1.
  apply Permutation_app_head.
  rewrite (filter_ext (fun x => negb (Config.isPlaceholder x)) Config.isDeployed)
    by (intros x; now rewrite placeholder_or_deployed).
  set (dep := List.filter Config.isDeployed sd).
  rewrite (filter_split Config.hasPrefetch dep) at 1.
  apply Permutation_app_head.
  apply filter_split.
Qed.

(** A function that is the server of a matching site is not selected. *)
Lemma functionData_skips_servers f s :
  In s (Config.siteData keys metadata) ->
  Stacks.arn (Stacks.data f) = Stacks.server (Stacks.data s) ->
  ~ In f (Config.functionData keys metadata).
Proof.
  intros Hs Harn Hf. unfold Config.functionData in Hf.
  apply filter_In in Hf as [Hf _]. apply filter_In in Hf as [_ Hf].
  apply negb_true_iff in Hf.
  assert (Js.array_includes (Config.regionalSiteArns keys metadata)
            (Stacks.arn (Stacks.data f)) = true) as Hyes; [|congruence].
  unfold Js.array_includes. apply existsb_exists.
  exists (Stacks.server (Stacks.data s)). split.
  - unfold Config.regionalSiteArns.
    exact (in_map (fun x => Stacks.server (Stacks.data x)) _ _ Hs).
  - apply String.eqb_eq. exact Harn.
Qed.

Lemma in_functions_without_prefetch f :
  In f (Config.functionDataWithoutPrefetchSecrets keys metadata) ->
  In f (Config.functionData keys metadata)
  /\ Stacks.type f = "Function" /\ Config.hasPrefetch f = false.
Proof.
  unfold Config.functionDataWithoutPrefetchSecrets. intros [Hf Hp]%filter_In.
  apply negb_true_iff in Hp. split; [exact Hf|]. split; [|exact Hp].
  unfold Config.functionData in Hf.
  apply filter_In in Hf as [Hf _]. apply filter_In in Hf as [Hf _].
  apply filter_In in Hf as [_ Hf]. now apply String.eqb_eq.
Qed.

End Buckets.

(* ===================================================================== *)
(** ** Restarting the selected resources *)
(* ===================================================================== *)

Lemma signal_is_lambda_request c fn :
  signal_target c = Some fn ->
  lambda_target c = Some fn /\ configuration_read c = None.
Proof. destruct c as [R cmd]. destruct cmd; cbn; intros H; try discriminate; auto. Qed.

Lemma signals_read_nothing fn (updates : list Call) :
  Forall (fun c => signal_target c = Some fn) updates ->
  omap configuration_read updates = [].
Proof.
  induction 1 as [|c updates Hc _ IH]; [reflexivity|].
  cbn. destruct (signal_is_lambda_request _ _ Hc) as [_ ->]. exact IH.
Qed.

Section Restart.

Context {B : Type} (backend : Backend B).

(** A [Promise.all] of restarts always settles: it reads the configuration
    of the target of every element, in order, sends nothing but requests
    about those targets, and keeps only elements it was given. *)
Lemma restartAll_returns (target : Stacks.Construct -> string)
    (cs : list Stacks.Construct) (w : World B) :
  exists (settled : list (option Stacks.Construct)) (w' : World B) (calls : list Call),
    mapM (Config.restartOne backend target) cs w = (Return settled, w')
    /\ trace w' = trace w ++ calls
    /\ Forall (fun c => exists fn, lambda_target c = Some fn /\ In fn (map target cs)) calls
    /\ omap configuration_read calls = map target cs
    /\ (forall c, In c (omap (fun c => c) settled) -> In c cs).
Proof.
  revert w. induction cs as [|c cs IH]; intros w.
  - exists [], w, []. cbn. rewrite app_nil_r. repeat split; auto.
  - destruct (restartFunction_returns backend (target c) w)
      as (r & w1 & updates & Hrun & Htrace & Hupd).
    destruct (IH w1) as (settled & w2 & calls & Hrest & Htrace2 & Hcalls & Hreads & Hkept).
    exists ((if r then Some c else None) :: settled), w2,
      (Sent (GetFunctionConfigurationCommand (target c)) :: updates ++ calls).
    split; [|split; [|split; [|split]]].
    + cbn [mapM]. unfold bind at 1. unfold Config.restartOne at 1. unfold bind at 1.
      rewrite Hrun. unfold ret at 1. unfold bind at 1. rewrite Hrest. reflexivity.
    + rewrite Htrace2, Htrace, <- app_assoc. reflexivity.
    + constructor; [exists (target c); split; [reflexivity | now left]|].
      apply Forall_app. split.
      * eapply List.Forall_impl; [|exact Hupd]. intros u Hu.
        exists (target c). split; [apply (signal_is_lambda_request _ _ Hu) | now left].
      * eapply List.Forall_impl; [|exact Hcalls]. intros u (fn & Hfn & Hin).
        exists fn. split; [exact Hfn | now right].
    + cbn [omap list_omap configuration_read].
      rewrite omap_app, (signals_read_nothing _ _ Hupd), Hreads. reflexivity.
    + intros x Hx. destruct r; cbn in Hx.
      * destruct Hx as [<-|Hx]; [now left | right; now apply Hkept].
      * right. now apply Hkept.
Qed.

(** What [restart] does once the metadata is read: it returns the report
    built from the selection, after requests about the servers of the
    regional sites and about the functions without prefetch only. *)
Lemma restart_runs (keys : list string) (w : World B) metadata b1 :
  respond backend StacksMetadata (svc w) = (Fulfilled metadata, b1) ->
  exists restartedSites restartedFunctions (w' : World B) (calls : list Call),
    Config.restart backend keys w
    = (Return {| edgeSites := Config.siteDataEdge keys metadata;
                 sites := restartedSites;
                 placeholderSites := Config.siteDataPlaceholder keys metadata;
                 functions := restartedFunctions;
                 sitesWithPrefetch := Config.siteDataWithPrefetchSecrets keys metadata;
                 functionsWithPrefetch :=
                   Config.functionDataWithPrefetchSecrets keys metadata |}, w')
    /\ trace w' = trace w ++ Sent StacksMetadata :: calls
    /\ Forall (fun c => exists fn,
                 lambda_target c = Some fn
                 /\ (In fn (map (fun s => Stacks.server (Stacks.data s))
                              (Config.siteDataRegional keys metadata))
                     \/ In fn (map (fun f => Stacks.arn (Stacks.data f))
                                 (Config.functionDataWithoutPrefetchSecrets keys metadata))))
         calls
    /\ omap configuration_read calls
       = map (fun s => Stacks.server (Stacks.data s))
           (Config.siteDataRegional keys metadata)
         ++ map (fun f => Stacks.arn (Stacks.data f))
              (Config.functionDataWithoutPrefetchSecrets keys metadata)
    /\ (forall c, In c restartedSites -> In c (Config.siteDataRegional keys metadata))
    /\ (forall c, In c restartedFunctions ->
                  In c (Config.functionDataWithoutPrefetchSecrets keys metadata)).
Proof.
  intros Hmeta.
  set (w1 := {| svc := b1; trace := trace w ++ [Sent StacksMetadata] |}).
  destruct (restartAll_returns (fun s => Stacks.server (Stacks.data s))
              (Config.siteDataRegional keys metadata) w1)
    as (settled1 & w2 & calls1 & Hrun1 & Htr1 & Hcalls1 & Hreads1 & Hkept1).
  destruct (restartAll_returns (fun f => Stacks.arn (Stacks.data f))
              (Config.functionDataWithoutPrefetchSecrets keys metadata) w2)
    as (settled2 & w3 & calls2 & Hrun2 & Htr2 & Hcalls2 & Hreads2 & Hkept2).
  exists (omap (fun c => c) settled1), (omap (fun c => c) settled2), w3, (calls1 ++ calls2).
  split; [|split; [|split; [|split; [|split]]]].
  - unfold Config.restart. unfold bind at 1.
    unfold send. rewrite Hmeta. fold w1.
    unfold bind at 1. unfold bind at 1. rewrite Hrun1. unfold ret at 1.
    unfold bind at 1. unfold bind at 1. rewrite Hrun2. reflexivity.
  - rewrite Htr2, Htr1. subst w1. cbn [trace]. rewrite <- !app_assoc. reflexivity.
  - apply Forall_app. split.
    + eapply List.Forall_impl; [|exact Hcalls1]. intros u (fn & Hfn & Hin). eauto.
    + eapply List.Forall_impl; [|exact Hcalls2]. intros u (fn & Hfn & Hin). eauto.
  - rewrite omap_app, Hreads1, Hreads2. reflexivity.
  - exact Hkept1.
  - exact Hkept2.
Qed.

End Restart.

(* ===================================================================== *)
(** ** The report of a restart *)
(* ===================================================================== *)

(** C2. For every metadata snapshot and key list, each matching site is in
    exactly one of the four groups (placeholder; deployed with prefetch;
    deployed, no prefetch, edge; deployed, no prefetch, regional), which
    together are the matching sites; [restart] returns a report that lists
    the first three as they are and restarts none of them: every request
    it sends to the compute service is about the server of a site of the
    regional group or about a function selected without prefetch, and it
    reads the configuration of each of those once, in order. *)
Theorem restart_partitions_sites_and_signals
    {B : Type} (backend : Backend B) (keys : list string) (w : World B)
    (metadata : Stacks.Metadata) (b1 : B) :
  respond backend StacksMetadata (svc w) = (Fulfilled metadata, b1) ->
  let placeholder := Config.siteDataPlaceholder keys metadata in
  let prefetch := Config.siteDataWithPrefetchSecrets keys metadata in
  let edge := Config.siteDataEdge keys metadata in
  let regional := Config.siteDataRegional keys metadata in
  let live := Config.functionDataWithoutPrefetchSecrets keys metadata in
  (forall c, In c (Config.siteData keys metadata) ->
     (In c placeholder /\ ~ In c prefetch /\ ~ In c edge /\ ~ In c regional)
     \/ (~ In c placeholder /\ In c prefetch /\ ~ In c edge /\ ~ In c regional)
     \/ (~ In c placeholder /\ ~ In c prefetch /\ In c edge /\ ~ In c regional)
     \/ (~ In c placeholder /\ ~ In c prefetch /\ ~ In c edge /\ In c regional))
  /\ Permutation (Config.siteData keys metadata)
       (placeholder ++ prefetch ++ edge ++ regional)
  /\ (forall s, In s regional ->
        Config.isDeployed s = true /\ Config.hasPrefetch s = false
        /\ Config.isEdge s = false)
  /\ (forall f, In f live ->
        Stacks.type f = "Function" /\ Config.hasPrefetch f = false)
  /\ exists (report : Report) (w' : World B) (calls : list Call),
       Config.restart backend keys w = (Return report, w')
       /\ trace w' = trace w ++ Sent StacksMetadata :: calls
       /\ placeholderSites report = placeholder
       /\ sitesWithPrefetch report = prefetch
       /\ edgeSites report = edge
       /\ (forall c, In c (sites report) -> In c regional)
       /\ (forall c, In c (functions report) -> In c live)
       /\ Forall (fun c => exists fn,
                    lambda_target c = Some fn
                    /\ (In fn (map (fun s => Stacks.server (Stacks.data s)) regional)
                        \/ In fn (map (fun f => Stacks.arn (Stacks.data f)) live)))
            calls
       /\ omap configuration_read calls
          = map (fun s => Stacks.server (Stacks.data s)) regional
            ++ map (fun f => Stacks.arn (Stacks.data f)) live.
Proof.
  intros Hmeta placeholder prefetch edge regional live.
  split; [|split; [|split; [|split]]].
  - intros c Hc. exact (site_in_exactly_one_bucket keys metadata c Hc).
  - apply site_buckets_cover.
  - intros s Hs. apply in_regional in Hs. tauto.
  - intros f Hf. apply in_functions_without_prefetch in Hf. tauto.
  - destruct (restart_runs backend keys w metadata b1 Hmeta)
      as (rs & rf & w' & calls & Hrun & Htr & Hcalls & Hreads & Hrs & Hrf).
    eexists _, w', calls. split; [exact Hrun|]. cbn [placeholderSites sitesWithPrefetch
      edgeSites sites functions]. auto 10.
Qed.

Lemma restart_partitions_sites_and_signals_witness :
  Permutation
    (Config.siteData ["k"] (InMemory.deployment Fixtures.site_cloud))
    (Config.siteDataPlaceholder ["k"] (InMemory.deployment Fixtures.site_cloud)
     ++ Config.siteDataWithPrefetchSecrets ["k"] (InMemory.deployment Fixtures.site_cloud)
     ++ Config.siteDataEdge ["k"] (InMemory.deployment Fixtures.site_cloud)
     ++ Config.siteDataRegional ["k"] (InMemory.deployment Fixtures.site_cloud))
  /\ Config.siteDataPlaceholder ["k"] (InMemory.deployment Fixtures.site_cloud)
     = [Fixtures.placeholder_site]
  /\ Config.siteDataWithPrefetchSecrets ["k"] (InMemory.deployment Fixtures.site_cloud)
     = [Fixtures.prefetch_site]
  /\ Config.siteDataEdge ["k"] (InMemory.deployment Fixtures.site_cloud)
     = [Fixtures.edge_site]
  /\ Config.siteDataRegional ["k"] (InMemory.deployment Fixtures.site_cloud)
     = [Fixtures.regional_site]
  /\ omap lambda_target
       (trace (Config.restart InMemory.backend ["k"]
                 (InMemory.start Fixtures.site_cloud)).2)
     = ["fn-regional"; "fn-regional"; "fn-plain"; "fn-plain"].
Proof.
  split; [|repeat split].
  exact (proj1 (proj2 (restart_partitions_sites_and_signals InMemory.backend ["k"]
                         (InMemory.start Fixtures.site_cloud)
                         (InMemory.deployment Fixtures.site_cloud)
                         Fixtures.site_cloud eq_refl))).
Defined.

(** C6. For every metadata snapshot and key list, a construct whose arn is
    the server of a matching site is in neither function group of the
    report that [restart] returns. *)
Theorem restart_skips_site_servers
    {B : Type} (backend : Backend B) (keys : list string) (w : World B)
    (metadata : Stacks.Metadata) (b1 : B) :
  respond backend StacksMetadata (svc w) = (Fulfilled metadata, b1) ->
  exists (report : Report) (w' : World B),
    Config.restart backend keys w = (Return report, w')
    /\ forall f s,
         In s (Config.siteData keys metadata) ->
         Stacks.arn (Stacks.data f) = Stacks.server (Stacks.data s) ->
         ~ In f (functions report) /\ ~ In f (functionsWithPrefetch report).
Proof.
  intros Hmeta.
  destruct (restart_runs backend keys w metadata b1 Hmeta)
    as (rs & rf & w' & calls & Hrun & _ & _ & _ & _ & Hrf).
  eexists _, w'. split; [exact Hrun|].
  intros f s Hs Harn. cbn [functions functionsWithPrefetch].
  pose proof (functionData_skips_servers keys metadata f s Hs Harn) as Hskip.
  split.
  - intros Hf. apply Hrf in Hf.
    apply in_functions_without_prefetch in Hf. tauto.
  - unfold Config.functionDataWithPrefetchSecrets. intros [Hf _]%filter_In. tauto.
Qed.

Lemma restart_skips_site_servers_witness :
  exists (report : Report) (w' : World InMemory.Cloud),
    Config.restart InMemory.backend ["k"] (InMemory.start Fixtures.site_cloud)
    = (Return report, w')
    /\ ~ In Fixtures.server_function (functions report)
    /\ ~ In Fixtures.server_function (functionsWithPrefetch report).
Proof.
  destruct (restart_skips_site_servers InMemory.backend ["k"]
              (InMemory.start Fixtures.site_cloud)
              (InMemory.deployment Fixtures.site_cloud)
              Fixtures.site_cloud eq_refl) as (report & w' & Hrun & Hskip).
  exists report, w'. split; [exact Hrun|].
  apply (Hskip Fixtures.server_function Fixtures.regional_site); [|reflexivity].
  cbn. auto.
Defined.

Section RestartedResources.

Context {B : Type} (backend : Backend B).





End RestartedResources.



(* ===================================================================== *)
(** ** Names and paths: parsing, scopes and environment names *)
(* ===================================================================== *)

Section MoreStringFacts.

Lemma includes_app c (a b : string) :
  Js.includes c (a +:+ b) = Js.includes c a || Js.includes c b.
Proof.
  induction a as [|x a IH]; [reflexivity|].
  simpl. rewrite IH. now rewrite orb_assoc.
Qed.

Lemma append_length (a b : string) :
  String.length (a +:+ b) = (String.length a + String.length b)%nat.
Proof. induction a as [|x a IH]; [reflexivity|]. simpl. now rewrite IH. Qed.

Lemma append_cancel_r (a b x : string) : a +:+ x = b +:+ x -> a = b.
Proof.
  revert b. induction a as [|c a IH]; intros [|d b] H.
  - reflexivity.
  - exfalso. apply (f_equal String.length) in H.
    rewrite !append_length in H. simpl in H. lia.
  - exfalso. apply (f_equal String.length) in H.
    rewrite !append_length in H. simpl in H. lia.
  - simpl in H. injection H as -> H. f_equal. now apply IH.
Qed.

Lemma append_cancel_l (x a b : string) : x +:+ a = x +:+ b -> a = b.
Proof. induction x as [|c x IH]; simpl; [trivial|]. intros [= H]. now apply IH. Qed.

Lemma substring_past_end n (s : string) :
  (String.length s <= n)%nat -> Js.substring n s = "".
Proof.
  revert n. induction s as [|x s IH]; intros [|n] H; cbn in *; try reflexivity; try lia.
  apply IH. lia.
Qed.

(** The split has a second part exactly when the separator occurs. *)
Lemma split_head_tail c (s : string) :
  exists h t, Js.split c s = h :: t /\ (t = [] <-> Js.includes c s = false).
Proof.
  induction s as [|x s (h & t & Hs & Ht)].
  - exists "", []. cbn. tauto.
  - cbn [Js.split Js.includes]. destruct (Ascii.eqb x c).
    + exists "", (h :: t). rewrite Hs. split; [reflexivity|]. cbn. split; discriminate.
    + rewrite Hs. exists (String x h), t. split; [reflexivity|]. exact Ht.
Qed.

(** The first part of a split never contains the separator. *)
Lemma split_head_clean c (s : string) h t :
  Js.split c s = h :: t -> Js.includes c h = false.
Proof.
  revert h t. induction s as [|x s IH]; intros h t H.
  - cbn in H. injection H as <- _. reflexivity.
  - cbn [Js.split] in H. destruct (Ascii.eqb x c) eqn:E.
    + injection H as <- _. reflexivity.
    + destruct (Js.split c s) as [|h' t'] eqn:Hs.
      * injection H as <- _. cbn. now rewrite E.
      * injection H as <- _. cbn. rewrite E. eapply IH. reflexivity.
Qed.

End MoreStringFacts.

(** What [parse] gives on a path that [pathFor] built, for the prefix of
    the same scope. *)
Lemma parse_of_pathFor (project : Project) (ty i p : string) (fb : bool) :
  Js.includes "/" ty = false ->
  Js.includes "/" i = false ->
  parse (Config.pathFor project
           {| pi_id := i; pi_type := ty; pi_prop := p; pi_fallback := fb |})
        (if fb then Config.PREFIX_FALLBACK project else Config.PREFIX_STAGE project)
  = {| type := Some ty; id := Some (Config.normalizeID i); prop := p |}.
Proof.
  intros Hty Hi. unfold parse, Config.pathFor. cbn [pi_id pi_type pi_prop pi_fallback].
  rewrite substring_app, !slash_app.
  rewrite (split_app_sep "/" ty) by exact Hty.
  rewrite (split_app_sep "/" (Config.normalizeID i))
    by (apply normalizeID_keeps_slash_free, Hi).
  cbn [lookup list_lookup Js.slice drop].
  f_equal. apply (join_split "/").
Qed.

(** X1. [parse] always yields a type, one without '/'; it yields no id
    exactly when what follows the prefix in the name contains no '/'. *)
Theorem parse_type_defined_id_needs_slash (ssmName prefix : string) :
  (exists t, type (parse ssmName prefix) = Some t /\ Js.includes "/" t = false)
  /\ (id (parse ssmName prefix) = None
      <-> Js.includes "/" (Js.substring (String.length prefix) ssmName) = false).
Proof.
  unfold parse. cbn [type id].
  destruct (split_head_tail "/" (Js.substring (String.length prefix) ssmName))
    as (h & t & Hs & Ht).
  rewrite Hs. split.
  - exists h. split; [reflexivity|]. eapply split_head_clean. exact Hs.
  - rewrite <- Ht. destruct t; cbn; split; congruence.
Qed.

(** X2. A name no longer than the prefix parses to the empty type, no id
    and the empty prop, whatever its characters. *)
Theorem parse_of_short_name (ssmName prefix : string) :
  (String.length ssmName <= String.length prefix)%nat ->
  parse ssmName prefix = {| type := Some ""; id := None; prop := "" |}.
Proof.
  intros H. unfold parse. rewrite substring_past_end by exact H. reflexivity.
Qed.

Lemma parse_of_short_name_witness :
  parse "/sst/app" "/sst/app/dev/" = {| type := Some ""; id := None; prop := "" |}.
Proof. apply parse_of_short_name. cbn. lia. Defined.

(** X3. Within one scope, two inputs whose types and ids contain no '/'
    get the same path only when they have the same type, the same
    normalized id and the same prop. *)
Theorem pathFor_injective_up_to_normalization
    (project : Project) (ty1 i1 p1 ty2 i2 p2 : string) (fb : bool) :
  Js.includes "/" ty1 = false -> Js.includes "/" i1 = false ->
  Js.includes "/" ty2 = false -> Js.includes "/" i2 = false ->
  Config.pathFor project
    {| pi_id := i1; pi_type := ty1; pi_prop := p1; pi_fallback := fb |}
  = Config.pathFor project
      {| pi_id := i2; pi_type := ty2; pi_prop := p2; pi_fallback := fb |} ->
  ty1 = ty2 /\ Config.normalizeID i1 = Config.normalizeID i2 /\ p1 = p2.
Proof.
  intros Ht1 Hi1 Ht2 Hi2 Hpath.
  pose proof (parse_of_pathFor project ty1 i1 p1 fb Ht1 Hi1) as H1.
  pose proof (parse_of_pathFor project ty2 i2 p2 fb Ht2 Hi2) as H2.
  rewrite Hpath, H2 in H1. injection H1 as -> -> ->. auto.
Qed.

Lemma pathFor_injective_up_to_normalization_witness :
  Config.normalizeID "my-key" = Config.normalizeID "my_key".
Proof.
  exact (proj1 (proj2 (pathFor_injective_up_to_normalization InMemory.app
                         "Secret" "my-key" "value" "Secret" "my_key" "value" false
                         eq_refl eq_refl eq_refl eq_refl eq_refl))).
Defined.

(** X4. The fallback path and the stage path of the same type, id and prop
    coincide exactly when the project's stage prefix is the fallback
    prefix itself. *)
Theorem pathFor_scopes_coincide_iff (project : Project) (ty i p : string) :
  Config.pathFor project
    {| pi_id := i; pi_type := ty; pi_prop := p; pi_fallback := true |}
  = Config.pathFor project
      {| pi_id := i; pi_type := ty; pi_prop := p; pi_fallback := false |}
  <-> Config.PREFIX_FALLBACK project = Config.PREFIX_STAGE project.
Proof.
  unfold Config.pathFor. cbn [pi_id pi_type pi_prop pi_fallback]. split.
  - apply append_cancel_r.
  - now intros ->.
Qed.

(** X5. The environment name read back from a stored path is the one
    [envFor] gives for the input the path was built from: SST, the type,
    the prop and the normalized id, joined by '_'. *)
Theorem envFor_of_stored_path (project : Project) (ty i p : string) (fb : bool) :
  Js.includes "/" ty = false ->
  Js.includes "/" i = false ->
  Config.envFor
    (parse (Config.pathFor project
              {| pi_id := i; pi_type := ty; pi_prop := p; pi_fallback := fb |})
       (if fb then Config.PREFIX_FALLBACK project else Config.PREFIX_STAGE project))
  = Config.envFor {| type := Some ty; id := Some i; prop := p |}
  /\ Config.envFor {| type := Some ty; id := Some i; prop := p |}
     = Return ("SST_" +:+ ty +:+ "_" +:+ p +:+ "_" +:+ Config.normalizeID i).
Proof.
  intros Hty Hi. rewrite (parse_of_pathFor project ty i p fb Hty Hi).
  unfold Config.envFor. cbn [id type prop Js.interpolate].
  unfold Config.normalizeID at 1.
  rewrite replaceAll_idem by apply dash_is_not_underscore. split; reflexivity.
Qed.

Lemma envFor_of_stored_path_witness :
  Config.envFor (parse "/sst/app/dev/Secret/my_key/value" "/sst/app/dev/")
  = Return "SST_Secret_value_my_key".
Proof.
  destruct (envFor_of_stored_path InMemory.app "Secret" "my-key" "value" false
              eq_refl eq_refl) as [Hread Hname].
  exact (eq_trans Hread Hname).
Defined.

(* ===================================================================== *)
(** ** Scanning, and what the environment holds *)
(* ===================================================================== *)

Section Scanning.

Context {B : Type} (backend : Backend B).

Lemma scan_step fuel prefix token :
  scanParameters backend (S fuel) prefix token
  = (results <- send backend (GetParametersByPathCommand prefix token) ;;
     match res_NextToken results with
     | None => ret (default [] (res_Parameters results))
     | Some next =>
         if String.eqb next "" then ret (default [] (res_Parameters results))
         else rest <- scanParameters backend fuel prefix (Some next) ;;
              ret (default [] (res_Parameters results) ++ rest)
     end).
Proof. reflexivity. Qed.

(** Whatever the outcome, a scan sends listing requests for its prefix
    only, at most one for each unit of fuel. *)
Lemma scan_trace fuel prefix token (w : World B) :
  exists calls,
    trace (scanParameters backend fuel prefix token w).2 = trace w ++ calls
    /\ Forall (fun c => scanned_path c = Some prefix) calls
    /\ (length calls <= fuel)%nat.
Proof.
  revert token w. induction fuel as [|fuel IH]; intros token w.
  - exists []. cbn. rewrite app_nil_r. auto.
  - rewrite scan_step. unfold bind at 1, send.
    destruct (respond backend (GetParametersByPathCommand prefix token) (svc w))
      as [[results|e] b1].
    + set (w1 := {| svc := b1; trace := _ |}).
      assert (Hone : exists calls,
                 trace w1 = trace w ++ calls
                 /\ Forall (fun c => scanned_path c = Some prefix) calls
                 /\ (length calls <= S fuel)%nat).
      { eexists [_]. split; [reflexivity|]. split; [repeat constructor | cbn; lia]. }
      destruct (res_NextToken results) as [next|]; [|exact Hone].
      destruct (String.eqb next ""); [exact Hone|].
      unfold bind, ret. destruct (IH (Some next) w1) as (calls & Htr & Hall & Hlen).
      destruct (scanParameters backend fuel prefix (Some next) w1) as [[rest|e|] w2];
        cbn [snd] in *;
        (exists (Sent (GetParametersByPathCommand prefix token) :: calls);
         split; [rewrite Htr; subst w1; cbn [trace]; now rewrite <- app_assoc|];
         split; [constructor; [reflexivity | exact Hall] | cbn; lia]).
    + eexists [_]. split; [reflexivity|]. split; [repeat constructor | cbn; lia].
Qed.

(** X10. The scan follows the continuation tokens: when the store serves
    a chain of pages for the prefix, ending with the first page that
    carries no token or an empty one, a scan with at least as much fuel as
    there are pages returns the pages concatenated in order, after one
    request for each page; and a scan that returns has read such a
    chain. *)
Theorem scanParameters_reads_the_pages (prefix : string) :
  (forall token (w : World B) pages calls b',
      Pages backend prefix token (svc w) pages calls b' ->
      forall fuel, (length pages <= fuel)%nat ->
        scanParameters backend fuel prefix token w
        = (Return (concat pages), {| svc := b'; trace := trace w ++ calls |})
        /\ length calls = length pages)
  /\ (forall fuel token (w w' : World B) scanned,
         scanParameters backend fuel prefix token w = (Return scanned, w') ->
         exists pages calls,
           Pages backend prefix token (svc w) pages calls (svc w')
           /\ scanned = concat pages
           /\ trace w' = trace w ++ calls).
Proof.
  split.
  - intros token w pages calls b' HP.
    remember (svc w) as b eqn:Hb. revert w Hb.
    induction HP as [token b b' results Hres Hend
                    |token b b1 b' results next pages calls Hres Hnext Hne HP IH];
      intros w Hb fuel Hfuel; subst b.
    + destruct fuel as [|fuel]; [cbn in Hfuel; lia|].
      rewrite scan_step. unfold bind at 1, send. rewrite Hres.
      split; [|reflexivity]. cbn [concat]. rewrite app_nil_r.
      destruct Hend as [-> | ->]; reflexivity.
    + destruct fuel as [|fuel]; [cbn in Hfuel; lia|].
      rewrite scan_step. unfold bind at 1, send. rewrite Hres, Hnext.
      assert (String.eqb next "" = false) as -> by now apply String.eqb_neq.
      unfold bind.
      destruct (IH {| svc := b1;
                      trace := trace w ++ [Sent (GetParametersByPathCommand prefix token)] |}
                  eq_refl fuel ltac:(cbn in Hfuel; lia)) as [-> Hlen].
      split; [|cbn; now rewrite Hlen].
      cbn [trace concat]. unfold ret. now rewrite <- app_assoc.
  - induction fuel as [|fuel IH]; intros token w w' scanned H; [discriminate H|].
    rewrite scan_step in H. unfold bind at 1, send in H.
    destruct (respond backend (GetParametersByPathCommand prefix token) (svc w))
      as [[results|e] b1] eqn:Hres; [|discriminate H].
    destruct (res_NextToken results) as [next|] eqn:Hnext.
    + destruct (String.eqb next "") eqn:Hempty.
      * apply String.eqb_eq in Hempty. subst next. injection H as <- <-.
        eexists [_], [_]. split; [|split].
        -- eapply Pages_last; [exact Hres | now right].
        -- cbn. now rewrite app_nil_r.
        -- reflexivity.
      * unfold bind in H.
        destruct (scanParameters backend fuel prefix (Some next) _)
          as [[rest|e|] w2] eqn:Hrest; try discriminate H.
        injection H as <- <-.
        destruct (IH _ _ _ _ Hrest) as (pages & calls & HP & -> & Htr).
        eexists (_ :: pages), (_ :: calls). split; [|split].
        -- eapply Pages_more; [exact Hres | exact Hnext | now apply String.eqb_neq | exact HP].
        -- reflexivity.
        -- rewrite Htr. cbn [trace]. now rewrite <- app_assoc.
    + injection H as <- <-.
      eexists [_], [_]. split; [|split].
      * eapply Pages_last; [exact Hres | now left].
      * cbn. now rewrite app_nil_r.
      * reflexivity.
Qed.

End Scanning.

Lemma scanParameters_reads_the_pages_witness :
  scanParameters InMemory.backend 2 "/sst/app/dev/" None
    (InMemory.start Fixtures.layered_cloud)
  = (Return [InMemory.raw Fixtures.stage_host; InMemory.raw Fixtures.stage_port],
     {| svc := Fixtures.layered_cloud;
        trace := [ Sent (GetParametersByPathCommand "/sst/app/dev/" None);
                   Sent (GetParametersByPathCommand "/sst/app/dev/" (Some "x")) ] |}).
Proof.
  refine (proj1 (proj1 (scanParameters_reads_the_pages InMemory.backend "/sst/app/dev/")
                   None (InMemory.start Fixtures.layered_cloud)
                   [[InMemory.raw Fixtures.stage_host]; [InMemory.raw Fixtures.stage_port]]
                   _ Fixtures.layered_cloud _ 2%nat (le_n 2))).
  apply (Pages_more InMemory.backend "/sst/app/dev/" None
           Fixtures.layered_cloud Fixtures.layered_cloud Fixtures.layered_cloud
           (InMemory.page "/sst/app/dev/" None Fixtures.layered_cloud) "x"
           [[InMemory.raw Fixtures.stage_port]]
           [Sent (GetParametersByPathCommand "/sst/app/dev/" (Some "x"))]);
    [reflexivity | reflexivity | discriminate |].
  apply (Pages_last InMemory.backend "/sst/app/dev/" (Some "x")
           Fixtures.layered_cloud Fixtures.layered_cloud
           (InMemory.page "/sst/app/dev/" (Some "x") Fixtures.layered_cloud));
    [reflexivity | now left].
Defined.

Section Environment.

Context {B : Type} (backend : Backend B) (project : Project).

(** Two scans in a row send listing requests for their two prefixes
    only. *)
Lemma two_scans_trace {A} fuel (p1 p2 : string)
    (f : list RawParameter -> list RawParameter -> A) (w : World B) :
  exists calls,
    trace ((x <- scanParameters backend fuel p1 None ;;
            y <- scanParameters backend fuel p2 None ;;
            ret (f x y)) w).2 = trace w ++ calls
    /\ Forall (fun c => scanned_path c = Some p1 \/ scanned_path c = Some p2) calls.
Proof.
  unfold bind, ret.
  destruct (scan_trace backend fuel p1 None w) as (calls1 & Htr1 & Hall1 & _).
  destruct (scanParameters backend fuel p1 None w) as [[x|e|] w1]; cbn [snd] in *;
    try (exists calls1; split; [exact Htr1|];
         eapply List.Forall_impl; [|exact Hall1]; now left).
  destruct (scan_trace backend fuel p2 None w1) as (calls2 & Htr2 & Hall2 & _).
  exists (calls1 ++ calls2). split.
  - destruct (scanParameters backend fuel p2 None w1) as [[y|e|] w2]; cbn [snd] in *;
      now rewrite Htr2, Htr1, <- app_assoc.
  - apply Forall_app. split.
    + eapply List.Forall_impl; [|exact Hall1]. now left.
    + eapply List.Forall_impl; [|exact Hall2]. now right.
Qed.

(** X9. Whatever the services answer, [parameters], [env] and [secrets]
    send nothing but listing requests: for the fallback prefix and the
    stage prefix, with Secret appended in the case of [secrets].  They
    never write to the store. *)
Theorem listings_only_scan fuel (w : World B) :
  (exists calls,
      trace (Config.parameters backend project fuel w).2 = trace w ++ calls
      /\ Forall (fun c => scanned_path c = Some (Config.PREFIX_FALLBACK project)
                          \/ scanned_path c = Some (Config.PREFIX_STAGE project)) calls)
  /\ (exists calls,
         trace (Config.env backend project fuel w).2 = trace w ++ calls
         /\ Forall (fun c => scanned_path c = Some (Config.PREFIX_FALLBACK project)
                             \/ scanned_path c = Some (Config.PREFIX_STAGE project)) calls)
  /\ (exists calls,
         trace (Config.secrets backend project fuel w).2 = trace w ++ calls
         /\ Forall (fun c =>
                      scanned_path c = Some (Config.PREFIX_STAGE project +:+ "Secret")
                      \/ scanned_path c = Some (Config.PREFIX_FALLBACK project +:+ "Secret"))
              calls).
Proof.
  assert (Hparams : exists calls,
      trace (Config.parameters backend project fuel w).2 = trace w ++ calls
      /\ Forall (fun c => scanned_path c = Some (Config.PREFIX_FALLBACK project)
                          \/ scanned_path c = Some (Config.PREFIX_STAGE project)) calls).
  { exact (two_scans_trace fuel _ _
             (fun x y => Config.collect (Config.PREFIX_STAGE project) y
                           (Config.collect (Config.PREFIX_FALLBACK project) x [])) w). }
  split; [exact Hparams|]. split.
  - destruct Hparams as (calls & Htr & Hall). exists calls. split; [|exact Hall].
    unfold Config.env, bind, lift, ret.
    destruct (Config.parameters backend project fuel w) as [[listed|e|] w1];
      cbn [snd] in *; try exact Htr.
    destruct (Config.envEntries listed); exact Htr.
  - exact (two_scans_trace fuel _ _
             (fun x y =>
                fold_left (Config.assignSecret Config.setFallback
                             (Config.PREFIX_FALLBACK project)) y
                  (fold_left (Config.assignSecret Config.setValue
                                (Config.PREFIX_STAGE project)) x (Some ∅))) w).
Qed.

Lemma env_inv fuel (w w' : World B) (m : gmap string string) :
  Config.env backend project fuel w = (Return m, w') ->
  exists listed entries,
    Config.parameters backend project fuel w = (Return listed, w')
    /\ Config.envEntries listed = Return entries
    /\ m = Js.spread
             (<["SST_STAGE" := stage project]> (<["SST_APP" := name project]> ∅))
             (Js.fromEntries entries).
Proof.
  unfold Config.env, bind, lift, ret. intros H.
  destruct (Config.parameters backend project fuel w) as [[listed|e|] w1];
    try discriminate H.
  destruct (Config.envEntries listed) as [entries|e|] eqn:He; try discriminate H.
  injection H as <- <-. eauto.
Qed.

Lemma envFor_shape (t : Parsed) (k : string) :
  Config.envFor t = Return k ->
  exists rest, k = "SST_" +:+ rest /\ Js.includes "_" rest = true.
Proof.
  unfold Config.envFor. destruct (id t) as [i|]; [|discriminate].
  intros [= <-]. eexists. split; [reflexivity|].
  rewrite includes_app. apply orb_true_iff. right. reflexivity.
Qed.

Lemma envFor_never_identity (t : Parsed) (k : string) :
  Config.envFor t = Return k -> k <> "SST_APP" /\ k <> "SST_STAGE".
Proof.
  intros (rest & -> & Hrest)%envFor_shape.
  split; intros H.
  - apply (append_cancel_l "SST_" rest "APP") in H. subst rest. discriminate Hrest.
  - apply (append_cancel_l "SST_" rest "STAGE") in H. subst rest. discriminate Hrest.
Qed.

Lemma fold_insert_lookup_Some (entries : list (string * string))
    (o : gmap string string) k v :
  fold_left (fun o kv => <[kv.1 := kv.2]> o) entries o !! k = Some v ->
  In (k, v) entries \/ o !! k = Some v.
Proof.
  revert o. induction entries as [|[k0 v0] entries IH]; intros o H; [now right|].
  cbn [fold_left fst snd] in H. destruct (IH _ H) as [Hin|Ho]; [left; now right|].
  destruct (decide (k0 = k)) as [->|Hne].
  - rewrite lookup_insert_eq in Ho. injection Ho as ->. left. now left.
  - rewrite lookup_insert_ne in Ho by exact Hne. now right.
Qed.

(** X6. The map that [env] returns always has the application name under
    SST_APP and the stage under SST_STAGE: no parameter, whatever its
    name in the store, can take their place. *)
Theorem env_keeps_app_and_stage fuel (w w' : World B) (m : gmap string string) :
  Config.env backend project fuel w = (Return m, w') ->
  m !! "SST_APP" = Some (name project) /\ m !! "SST_STAGE" = Some (stage project).
Proof.
  intros (listed & entries & _ & Hentries & ->)%env_inv.
  assert (Hfree : forall k, k = "SST_APP" \/ k = "SST_STAGE" ->
                            Js.fromEntries entries !! k = None).
  { intros k Hk. unfold Js.fromEntries. rewrite fold_insert_other; [apply lookup_empty|].
    intros ((k' & v) & Hk' & Hin)%in_map_iff. cbn in Hk'. subst k'.
    destruct (envEntries_In_entry _ _ _ _ Hentries Hin) as (p & _ & Hp & _).
    destruct (envFor_never_identity _ _ Hp). destruct Hk; congruence. }
  unfold Js.spread. split.
  - rewrite lookup_union_r by (apply Hfree; now left).
    rewrite lookup_insert_ne by discriminate. apply lookup_insert_eq.
  - rewrite lookup_union_r by (apply Hfree; now right). apply lookup_insert_eq.
Qed.

(** X7. Every other entry of the map that [env] returns comes from a
    parameter that [parameters] lists: its key is the environment name of
    that parameter, which begins with SST and an underscore, and its
    value is the value of that parameter. *)
Theorem env_entries_come_from_parameters
    fuel (w w' : World B) (m : gmap string string) :
  Config.env backend project fuel w = (Return m, w') ->
  exists listed,
    Config.parameters backend project fuel w = (Return listed, w')
    /\ forall k v, m !! k = Some v ->
         (k = "SST_APP" /\ v = name project)
         \/ (k = "SST_STAGE" /\ v = stage project)
         \/ (exists p, In p listed /\ Config.envFor (parsed p) = Return k
                       /\ value p = v /\ Js.startsWith k "SST_" = true).
Proof.
  intros (listed & entries & Hlisted & Hentries & ->)%env_inv.
  exists listed. split; [exact Hlisted|]. intros k v Hkv.
  unfold Js.spread in Hkv. apply lookup_union_Some_raw in Hkv as [Hentry|[_ Hbase]].
  - right. right. unfold Js.fromEntries in Hentry.
    apply fold_insert_lookup_Some in Hentry as [Hin|Hempty];
      [|rewrite lookup_empty in Hempty; discriminate].
    destruct (envEntries_In_entry _ _ _ _ Hentries Hin) as (p & Hp & Hk & Hv).
    exists p. repeat split; try assumption.
    destruct (envFor_shape _ _ Hk) as (rest & -> & _).
    unfold Js.startsWith. simpl. now destruct rest.
  - destruct (decide (k = "SST_STAGE")) as [->|Hne].
    + rewrite lookup_insert_eq in Hbase. injection Hbase as <-. right. left. auto.
    + rewrite lookup_insert_ne in Hbase by congruence.
      destruct (decide (k = "SST_APP")) as [->|Hne'].
      * rewrite lookup_insert_eq in Hbase. injection Hbase as <-. left. auto.
      * rewrite lookup_insert_ne, lookup_empty in Hbase by congruence. discriminate.
Qed.

Lemma envEntries_throws (listed : list Param) (p : Param) :
  In p listed -> id (parsed p) = None ->
  Config.envEntries listed = Throw Config.undefined_replace.
Proof.
  induction listed as [|q listed IH]; intros Hin Hid; [destruct Hin|].
  cbn [Config.envEntries]. unfold Config.envFor at 1.
  destruct Hin as [->|Hin].
  - now rewrite Hid.
  - destruct (id (parsed q)); [|reflexivity]. now rewrite (IH Hin Hid).
Qed.

Lemma envEntries_returns (listed : list Param) :
  Forall (fun p => id (parsed p) <> None) listed ->
  exists entries, Config.envEntries listed = Return entries.
Proof.
  induction 1 as [|q listed Hq _ (entries & IH)]; [now exists []|].
  cbn [Config.envEntries]. unfold Config.envFor.
  destruct (id (parsed q)) as [i|]; [|contradiction].
  rewrite IH. eauto.
Qed.

(** X8. Once both scans have returned, [env] throws the TypeError of
    reading replace on undefined as soon as one listed parameter has no
    id, that is, a name without '/' after the prefix; and it returns a map
    when every listed parameter has an id. *)
Theorem env_throws_exactly_on_a_missing_id
    fuel (w w1 w2 : World B) fromFallback fromStage :
  scanParameters backend fuel (Config.PREFIX_FALLBACK project) None w
    = (Return fromFallback, w1) ->
  scanParameters backend fuel (Config.PREFIX_STAGE project) None w1
    = (Return fromStage, w2) ->
  let listed :=
    Config.collect (Config.PREFIX_FALLBACK project) fromFallback []
    ++ Config.collect (Config.PREFIX_STAGE project) fromStage [] in
  (Exists (fun p => id (parsed p) = None) listed ->
   Config.env backend project fuel w = (Throw Config.undefined_replace, w2))
  /\ (Forall (fun p => id (parsed p) <> None) listed ->
      exists m, Config.env backend project fuel w = (Return m, w2)).
Proof.
  intros Hfb Hst listed.
  unfold Config.env, bind, lift, ret.
  rewrite (parameters_of_scans backend project _ _ _ _ _ _ Hfb Hst). fold listed.
  split.
  - intros (p & Hp & Hid)%List.Exists_exists.
    now rewrite (envEntries_throws listed p Hp Hid).
  - intros (entries & ->)%envEntries_returns. eauto.
Qed.

End Environment.

Lemma env_keeps_app_and_stage_witness :
  exists m w',
    Config.env InMemory.backend InMemory.app 3 (InMemory.start Fixtures.layered_cloud)
    = (Return m, w')
    /\ m !! "SST_APP" = Some "app" /\ m !! "SST_STAGE" = Some "dev".
Proof.
  eexists _, _. split; [reflexivity|].
  exact (env_keeps_app_and_stage InMemory.backend InMemory.app 3
           (InMemory.start Fixtures.layered_cloud) _ _ eq_refl).
Defined.

Lemma env_entries_come_from_parameters_witness :
  exists listed w',
    Config.parameters InMemory.backend InMemory.app 3
      (InMemory.start Fixtures.layered_cloud) = (Return listed, w')
    /\ length listed = 3%nat.
Proof.
  destruct (env_entries_come_from_parameters InMemory.backend InMemory.app 3
              (InMemory.start Fixtures.layered_cloud) _ _ eq_refl)
    as (listed & Hlisted & _).
  eexists listed, _. split; [exact Hlisted|].
  cbv in Hlisted. injection Hlisted as <-. reflexivity.
Defined.

Lemma env_throws_exactly_on_a_missing_id_witness :
  (Config.env InMemory.backend InMemory.app 3
     (InMemory.start Fixtures.orphan_cloud)).1
  = Throw Config.undefined_replace.
Proof.
  rewrite (proj1 (env_throws_exactly_on_a_missing_id InMemory.backend InMemory.app 3
                    (InMemory.start Fixtures.orphan_cloud) _ _ []
                    [InMemory.raw Fixtures.stage_host; InMemory.raw Fixtures.orphan]
                    eq_refl eq_refl)).
  - reflexivity.
  - apply List.Exists_exists. eexists. split; [right; now left | reflexivity].
Defined.

(* ===================================================================== *)
(** ** The secrets object *)
(* ===================================================================== *)

Section SecretRecords.

Variable assign : string -> Config.SecretValues -> Config.SecretValues.
Hypothesis assign_overwrites : forall v v' r, assign v (assign v' r) = assign v r.
Variable prefix : string.

Lemma fold_last_init scanned key (init : option string) :
  fold_left
    (fun found p => if String.eqb (secretKey prefix p) key then Some (Value p) else found)
    scanned init
  = match lastValue prefix scanned key with
    | Some v => Some v
    | None => init
    end.
Proof.
  unfold lastValue. revert init.
  induction scanned as [|q scanned IH]; intros init; [reflexivity|].
  cbn [fold_left].
  rewrite (IH (if String.eqb (secretKey prefix q) key then Some (Value q) else init)).
  rewrite (IH (if String.eqb (secretKey prefix q) key then Some (Value q) else None)).
  destruct (fold_left _ scanned None); [reflexivity|].
  now destruct (String.eqb (secretKey prefix q) key).
Qed.

Lemma lastValue_step p scanned key :
  lastValue prefix (p :: scanned) key
  = match lastValue prefix scanned key with
    | Some v => Some v
    | None => if String.eqb (secretKey prefix p) key then Some (Value p) else None
    end.
Proof. unfold lastValue at 1. cbn [fold_left]. apply fold_last_init. Qed.

(** One loop of [secrets] over scanned parameters none of which is filed
    under a name of [Object.prototype]: each name scanned gets the value
    scanned last for it, assigned to the record it had. *)
Lemma assign_all scanned (m0 : gmap string Config.SecretValues) :
  Forall (fun p => Js.array_includes Config.Object_prototype_names
                     (secretKey prefix p) = false) scanned ->
  exists m,
    fold_left (Config.assignSecret assign prefix) scanned (Some m0) = Some m
    /\ forall key,
         m !! key
         = match lastValue prefix scanned key with
           | Some v =>
               Some (assign v (default {| Config.sv_value := None;
                                          Config.sv_fallback := None |} (m0 !! key)))
           | None => m0 !! key
           end.
Proof.
  revert m0. induction scanned as [|p scanned IH]; intros m0 Hclean.
  - exists m0. split; reflexivity.
  - apply Forall_cons in Hclean as [Hp Hclean].
    set (kp := secretKey prefix p).
    set (blank := {| Config.sv_value := None; Config.sv_fallback := None |}).
    set (m1 := <[kp := assign (Value p) (default blank (m0 !! kp))]> m0).
    assert (Hstep : Config.assignSecret assign prefix (Some m0) p = Some m1).
    { unfold Config.assignSecret. fold (secretKey prefix p). fold kp.
      subst m1. destruct (m0 !! kp) as [r|]; [reflexivity|].
      fold kp in Hp. now rewrite Hp. }
    destruct (IH m1 Hclean) as (m & Hm & Hlook).
    exists m. split; [cbn [fold_left]; now rewrite Hstep|].
    intros key. rewrite Hlook, lastValue_step. fold kp. subst m1.
    destruct (lastValue prefix scanned key) as [v|].
    + destruct (String.eqb_spec kp key) as [->|Hne].
      * rewrite lookup_insert_eq. simpl. now rewrite assign_overwrites.
      * now rewrite lookup_insert_ne.
    + destruct (String.eqb_spec kp key) as [->|Hne].
      * now rewrite lookup_insert_eq.
      * now rewrite lookup_insert_ne.
Qed.

End SecretRecords.

Lemma lastValue_Some_In prefix scanned key v :
  lastValue prefix scanned key = Some v ->
  exists q, In q scanned /\ secretKey prefix q = key /\ Value q = v.
Proof.
  induction scanned as [|p scanned IH]; [discriminate|].
  rewrite lastValue_step.
  destruct (lastValue prefix scanned key) as [v'|].
  - intros [= ->]. destruct (IH eq_refl) as (q & Hq & Hk & Hv).
    exists q. split; [now right | auto].
  - destruct (String.eqb_spec (secretKey prefix p) key) as [Hk|]; [|discriminate].
    intros [= <-]. exists p. split; [now left | auto].
Qed.

Lemma lastValue_unique prefix scanned p :
  In p scanned ->
  (forall q, In q scanned -> secretKey prefix q = secretKey prefix p ->
             Value q = Value p) ->
  lastValue prefix scanned (secretKey prefix p) = Some (Value p).
Proof.
  induction scanned as [|q scanned IH]; intros Hin Huniq; [destruct Hin|].
  rewrite lastValue_step. destruct Hin as [->|Hin].
  - destruct (lastValue prefix scanned (secretKey prefix p)) as [v'|] eqn:Hlast.
    + apply lastValue_Some_In in Hlast as (q & Hq & Hk & <-).
      f_equal. apply Huniq; [now right | exact Hk].
    + now rewrite String.eqb_refl.
  - rewrite IH; [reflexivity | exact Hin |].
    intros q' Hq'. apply Huniq. now right.
Qed.

Section Secrets.

Context {B : Type} (backend : Backend B) (project : Project).

(** The two loops of [secrets], once both scans have returned. *)
Lemma secrets_gathers_both_scopes_aux
    fuel (w w1 w2 : World B) fromStage fromFallback :
  scanParameters backend fuel (Config.PREFIX_STAGE project +:+ "Secret") None w
    = (Return fromStage, w1) ->
  scanParameters backend fuel (Config.PREFIX_FALLBACK project +:+ "Secret") None w1
    = (Return fromFallback, w2) ->
  Forall (fun p => Js.array_includes Config.Object_prototype_names
                     (secretKey (Config.PREFIX_STAGE project) p) = false) fromStage ->
  Forall (fun p => Js.array_includes Config.Object_prototype_names
                     (secretKey (Config.PREFIX_FALLBACK project) p) = false)
    fromFallback ->
  exists result,
    Config.secrets backend project fuel w = (Return (Some result), w2)
    /\ forall key,
         result !! key
         = match lastValue (Config.PREFIX_STAGE project) fromStage key,
                 lastValue (Config.PREFIX_FALLBACK project) fromFallback key with
           | None, None => None
           | v, f => Some {| Config.sv_value := v; Config.sv_fallback := f |}
           end.
Proof.
  intros Hst Hfb Hclean1 Hclean2.
  destruct (assign_all Config.setValue ltac:(reflexivity)
              (Config.PREFIX_STAGE project) fromStage ∅ Hclean1) as (m1 & Hm1 & Hlook1).
  destruct (assign_all Config.setFallback ltac:(reflexivity)
              (Config.PREFIX_FALLBACK project) fromFallback m1 Hclean2)
    as (m & Hm & Hlook).
  exists m. split.
  - unfold Config.secrets, bind, ret. rewrite Hst, Hfb, Hm1, Hm. reflexivity.
  - intros key. rewrite Hlook, Hlook1, lookup_empty.
    destruct (lastValue (Config.PREFIX_STAGE project) fromStage key),
             (lastValue (Config.PREFIX_FALLBACK project) fromFallback key);
      reflexivity.
Qed.

(** X11. When both scans return and no scanned id is a property name of
    [Object.prototype], [secrets] returns an object with one record for
    each id scanned in either scope: its value is the value scanned last
    for that id under the stage prefix, its fallback the one scanned last
    under the fallback prefix, and either is missing when that scope has
    no parameter for the id. *)
Theorem secrets_gathers_both_scopes
    fuel (w w1 w2 : World B) fromStage fromFallback :
  scanParameters backend fuel (Config.PREFIX_STAGE project +:+ "Secret") None w
    = (Return fromStage, w1) ->
  scanParameters backend fuel (Config.PREFIX_FALLBACK project +:+ "Secret") None w1
    = (Return fromFallback, w2) ->
  Forall (fun p => Js.array_includes Config.Object_prototype_names
                     (secretKey (Config.PREFIX_STAGE project) p) = false) fromStage ->
  Forall (fun p => Js.array_includes Config.Object_prototype_names
                     (secretKey (Config.PREFIX_FALLBACK project) p) = false)
    fromFallback ->
  exists result,
    Config.secrets backend project fuel w = (Return (Some result), w2)
    /\ forall key,
         result !! key
         = match lastValue (Config.PREFIX_STAGE project) fromStage key,
                 lastValue (Config.PREFIX_FALLBACK project) fromFallback key with
           | None, None => None
           | v, f => Some {| Config.sv_value := v; Config.sv_fallback := f |}
           end.
Proof. apply secrets_gathers_both_scopes_aux. Qed.

(** The property name under which [secrets] files the parameter that
    [setSecret] writes for a key without '/' is the normalized key. *)
Lemma secretKey_of_secretPath (input : SecretInput) (v : string) :
  Js.includes "/" (si_key input) = false ->
  secretKey
    (if si_fallback input then Config.PREFIX_FALLBACK project
     else Config.PREFIX_STAGE project)
    {| Name := secretPath project input; Value := v |}
  = Config.normalizeID (si_key input).
Proof.
  intros Hkey. unfold secretKey, secretPath. cbn [Name].
  rewrite (parse_of_pathFor project "Secret" (si_key input) "value"
             (si_fallback input) eq_refl Hkey).
  reflexivity.
Qed.

(** X12. A stage secret is found in the object of [secrets] under its
    normalized key, with the stored value: when the stage scan holds the
    parameter at the path [setSecret] writes for a key without '/', and
    no other value for the same id, the record under the normalized key
    has that value. *)
Theorem secrets_files_under_normalized_key
    fuel (w w1 w2 : World B) fromStage fromFallback (key v : string) :
  Js.includes "/" key = false ->
  scanParameters backend fuel (Config.PREFIX_STAGE project +:+ "Secret") None w
    = (Return fromStage, w1) ->
  scanParameters backend fuel (Config.PREFIX_FALLBACK project +:+ "Secret") None w1
    = (Return fromFallback, w2) ->
  Forall (fun p => Js.array_includes Config.Object_prototype_names
                     (secretKey (Config.PREFIX_STAGE project) p) = false) fromStage ->
  Forall (fun p => Js.array_includes Config.Object_prototype_names
                     (secretKey (Config.PREFIX_FALLBACK project) p) = false)
    fromFallback ->
  In {| Name := secretPath project
                  {| si_key := key; si_value := v; si_fallback := false |};
        Value := v |} fromStage ->
  (forall q, In q fromStage ->
             secretKey (Config.PREFIX_STAGE project) q = Config.normalizeID key ->
             Value q = v) ->
  exists result r,
    Config.secrets backend project fuel w = (Return (Some result), w2)
    /\ result !! Config.normalizeID key = Some r
    /\ Config.sv_value r = Some v.
Proof.
  intros Hkey Hst Hfb Hclean1 Hclean2 Hin Huniq.
  destruct (secrets_gathers_both_scopes_aux fuel w w1 w2 fromStage fromFallback
              Hst Hfb Hclean1 Hclean2) as (result & Hrun & Hlook).
  pose proof (secretKey_of_secretPath
                {| si_key := key; si_value := v; si_fallback := false |} v Hkey) as Hk.
  cbn [si_fallback si_key] in Hk.
  pose proof (lastValue_unique (Config.PREFIX_STAGE project) fromStage _ Hin) as Hlast.
  rewrite Hk in Hlast. cbn [Value] in Hlast. specialize (Hlast Huniq).
  exists result. specialize (Hlook (Config.normalizeID key)). rewrite Hlast in Hlook.
  eexists. split; [exact Hrun|]. split; [exact Hlook|]. reflexivity.
Qed.

End Secrets.

Lemma secrets_gathers_both_scopes_witness :
  exists result w',
    Config.secrets InMemory.backend InMemory.app 3
      (InMemory.start Fixtures.secrets_cloud) = (Return (Some result), w')
    /\ result !! "TOKEN"
       = Some {| Config.sv_value := Some "stage-token";
                 Config.sv_fallback := Some "fallback-token" |}
    /\ result !! "SHARED"
       = Some {| Config.sv_value := None; Config.sv_fallback := Some "shared" |}
    /\ result !! "OTHER" = None.
Proof.
  destruct (secrets_gathers_both_scopes InMemory.backend InMemory.app 3
              (InMemory.start Fixtures.secrets_cloud) _ _
              [InMemory.raw Fixtures.stage_token]
              [InMemory.raw Fixtures.fallback_token; InMemory.raw Fixtures.fallback_only]
              eq_refl eq_refl)
    as (result & Hrun & Hlook).
  - repeat constructor.
  - repeat constructor.
  - eexists result, _. split; [exact Hrun|]. rewrite !Hlook. repeat split.
Defined.

Lemma secrets_files_under_normalized_key_witness :
  exists result r w',
    Config.secrets InMemory.backend InMemory.app 3
      (InMemory.start Fixtures.secret_cloud) = (Return (Some result), w')
    /\ result !! "my_key" = Some r
    /\ Config.sv_value r = Some "hunter2".
Proof.
  destruct (secrets_files_under_normalized_key InMemory.backend InMemory.app 3
              (InMemory.start Fixtures.secret_cloud) _ _
              [InMemory.raw Fixtures.stored_secret] [] "my-key" "hunter2"
              eq_refl eq_refl eq_refl)
    as (result & r & Hrun & Hlook & Hvalue).
  - repeat constructor.
  - constructor.
  - now left.
  - intros q [<-|[]] _. reflexivity.
  - eexists result, r, _. split; [exact Hrun|]. split; [exact Hlook | exact Hvalue].
Defined.

(* ===================================================================== *)
(** ** One secret: the requests of set, get and remove *)
(* ===================================================================== *)

Ltac settle_responses backend :=
  repeat match goal with
         | |- context [respond backend ?c ?b] =>
             destruct (respond backend c b) as [[?|?] ?]; cbn [svc trace fst snd]
         | |- context [if ?c then _ else _] => destruct c; cbn [svc trace fst snd negb]
         end.

Section OneSecret.

Context {B : Type} (backend : Backend B) (project : Project).

(** X13. The three operations on one secret reach one parameter only:
    every request [setSecret] sends to the store names the path computed
    from its input, [getSecret] sends a single get of that path and
    [removeSecret] a single delete of it, whatever the store answers. *)
Theorem secret_operations_touch_one_path (input : SecretInput) (w : World B) :
  (exists calls,
      trace (Config.setSecret backend project input w).2 = trace w ++ calls
      /\ Forall (fun c => is_ssm c = true ->
                          ssm_name c = Some (secretPath project input)) calls)
  /\ trace (Config.getSecret backend project input w).2
     = trace w ++ [Sent (GetParameterCommand (secretPath project input))]
  /\ trace (Config.removeSecret backend project input w).2
     = trace w ++ [Sent (DeleteParameterCommand (secretPath project input))].
Proof.
  split; [|split].
  - rewrite setSecret_unfold.
    unfold announce, bind, try_catch, throw, send, secretPut, secretDelete.
    cbn [svc trace]. settle_responses backend;
      (eexists; split;
       [rewrite <- ?app_assoc; cbn [app]; reflexivity
       | repeat constructor; cbn; congruence]).
  - unfold Config.getSecret, getParameter, bind, ret, send. fold (secretPath project input).
    destruct (respond backend _ (svc w)) as [[?|?] ?]; reflexivity.
  - unfold Config.removeSecret, deleteParameter, send. fold (secretPath project input).
    destruct (respond backend _ (svc w)) as [[?|?] ?]; reflexivity.
Qed.

(** X14. When [setSecret] returns, the last three requests it sent are
    the accepted put, the request for the IoT prefix and the event
    config.secret.updated, published on the topic made of that prefix and
    /events, with the key as it was given, not normalized; before them it
    sent nothing, or the first put and the delete of the recovery. *)
Theorem setSecret_publishes_after_storing
    (input : SecretInput) (w w' : World B) :
  Config.setSecret backend project input w = (Return tt, w') ->
  exists earlier iot_prefix,
    trace w'
    = trace w ++ earlier
      ++ [ Sent (secretPut project input);
           Sent UseIOT;
           Sent (IotPublish (iot_prefix +:+ "/events") "config.secret.updated"
                   (si_key input)) ]
    /\ (earlier = []
        \/ earlier = [Sent (secretPut project input); Sent (secretDelete project input)]).
Proof.
  rewrite setSecret_unfold.
  unfold announce, bind, try_catch, throw, send. cbn [svc trace].
  destruct (respond backend (secretPut project input) (svc w)) as [[[]|e] b1];
    cbv beta iota zeta; cbn [svc trace].
  - destruct (respond backend UseIOT b1) as [[prefix|e1] b2]; cbv beta iota zeta; cbn [svc trace];
      [|discriminate].
    match goal with
    | |- context [respond backend ?c b2] => destruct (respond backend c b2) as [[[]|e2] b3]
    end; [|discriminate].
    intros [= <-]. exists [], prefix. cbn [trace app].
    rewrite <- !app_assoc. cbn [app]. auto.
  - destruct (Config.wasAdvanced e); cbn [negb svc trace]; [|discriminate].
    destruct (respond backend (secretDelete project input) b1) as [[[]|e1] b2];
      cbv beta iota zeta; cbn [svc trace]; [|discriminate].
    destruct (respond backend (secretPut project input) b2) as [[[]|e2] b3];
      cbv beta iota zeta; cbn [svc trace]; [|discriminate].
    destruct (respond backend UseIOT b3) as [[prefix|e3] b4]; cbv beta iota zeta; cbn [svc trace];
      [|discriminate].
    match goal with
    | |- context [respond backend ?c b4] => destruct (respond backend c b4) as [[[]|e4] b5]
    end; [|discriminate].
    intros [= <-]. eexists [_; _], prefix. cbn [trace app].
    rewrite <- !app_assoc. cbn [app]. auto.
Qed.

End OneSecret.

Lemma setSecret_publishes_after_storing_witness :
  trace (Config.setSecret InMemory.backend InMemory.app Fixtures.my_secret
           (InMemory.start Fixtures.empty_cloud)).2
  = [ Sent (PutParameterCommand "/sst/app/dev/Secret/my_key/value" "hunter2" Standard);
      Sent UseIOT;
      Sent (IotPublish "/sst/app/dev/events" "config.secret.updated" "my-key") ].
Proof.
  destruct (setSecret_publishes_after_storing InMemory.backend InMemory.app
              Fixtures.my_secret (InMemory.start Fixtures.empty_cloud) _ eq_refl)
    as (earlier & iot_prefix & Htrace & _).
  reflexivity.
Defined.

(* ===================================================================== *)
(** ** The restart signal *)
(* ===================================================================== *)

Section Signal.

Context {B : Type} (backend : Backend B).

(** X15. When the configuration of a function is read, [restartFunction]
    sends one update to the same function: it carries the timestamp of
    that moment under SST_ADMIN_SECRET_UPDATED_AT and every other variable
    as the configuration had it (none when the configuration has no
    environment); the call returns true exactly when the update is
    accepted. *)
Theorem restartFunction_updates_the_configuration
    (fn : string) (w : World B) (config : FunctionConfiguration) (b1 : B) :
  respond backend (GetFunctionConfigurationCommand fn) (svc w)
    = (Fulfilled config, b1) ->
  exists (vars : gmap string string) (r : bool) (b2 : B),
    restartFunction backend fn w
    = (Return r,
       {| svc := b2;
          trace := trace w ++ [ Sent (GetFunctionConfigurationCommand fn);
                                Sent (UpdateFunctionConfigurationCommand fn vars) ] |})
    /\ vars !! SECRET_UPDATED_AT_ENV = Some (pretty (now backend b1))
    /\ (forall k, k <> SECRET_UPDATED_AT_ENV ->
          vars !! k = default ∅ (cfg_Environment config ≫= env_Variables) !! k)
    /\ (r = true
        <-> exists b, respond backend (UpdateFunctionConfigurationCommand fn vars) b1
                      = (Fulfilled tt, b)).
Proof.
  intros Hget.
  set (vars := <[SECRET_UPDATED_AT_ENV := pretty (now backend b1)]>
                 (default ∅ (cfg_Environment config ≫= env_Variables))).
  exists vars.
  unfold restartFunction, try_catch, bind, send, Date_now, ret. cbn [svc trace].
  rewrite Hget. cbn [svc trace]. fold vars.
  destruct (respond backend (UpdateFunctionConfigurationCommand fn vars) b1)
    as [[[]|e] b2] eqn:Hupd.
  - exists true, b2. rewrite <- app_assoc. split; [reflexivity|].
    split; [apply lookup_insert_eq|]. split.
    + intros k Hk. subst vars. now rewrite lookup_insert_ne.
    + split; eauto.
  - exists false, b2. split.
    + destruct (_ && _); rewrite <- app_assoc; reflexivity.
    + split; [apply lookup_insert_eq|]. split.
      * intros k Hk. subst vars. now rewrite lookup_insert_ne.
      * split; [intros [=] | intros [b Hb]; discriminate Hb].
Qed.

End Signal.

Lemma restartFunction_updates_the_configuration_witness :
  exists vars w',
    restartFunction InMemory.backend "fn-plain" (InMemory.start Fixtures.site_cloud)
    = (Return true, w')
    /\ trace w' = [ Sent (GetFunctionConfigurationCommand "fn-plain");
                    Sent (UpdateFunctionConfigurationCommand "fn-plain" vars) ]
    /\ vars !! "STAGE" = Some "dev"
    /\ vars !! "SST_ADMIN_SECRET_UPDATED_AT" = Some "1700000000000".
Proof.
  destruct (restartFunction_updates_the_configuration InMemory.backend "fn-plain"
              (InMemory.start Fixtures.site_cloud) _ _ eq_refl)
    as (vars & r & b2 & Hrun & Hstamp & Hkeep & Htrue).
  exists vars. eexists. split; [|split; [|split]].
  - rewrite Hrun. f_equal. f_equal. apply Htrue.
    cbv in Hrun. injection Hrun as _ _ <-. eexists. reflexivity.
  - reflexivity.
  - rewrite Hkeep by discriminate. reflexivity.
  - exact Hstamp.
Defined.

(* ===================================================================== *)
(** ** Restart: nothing to do, everything accepted, who is reported *)
(* ===================================================================== *)

Lemma filter_none {A} (f : A -> bool) (l : list A) :
  Forall (fun x => f x = false) l -> List.filter f l = [].
Proof.
  induction 1 as [|x l Hx _ IH]; [reflexivity|]. cbn. now rewrite Hx.
Qed.

Lemma site_buckets_use_a_key keys metadata c :
  In c (Config.siteDataPlaceholder keys metadata)
  \/ In c (Config.siteDataWithPrefetchSecrets keys metadata)
  \/ In c (Config.siteDataEdge keys metadata)
  \/ In c (Config.siteDataRegional keys metadata) ->
  In c (Config.flat metadata)
  /\ Config.usesSomeKey keys c = true /\ Config.isSite c = true.
Proof.
  assert (Hsd : In c (Config.siteData keys metadata) ->
                In c (Config.flat metadata)
                /\ Config.usesSomeKey keys c = true /\ Config.isSite c = true).
  { unfold Config.siteData. rewrite !filter_In. tauto. }
  rewrite in_placeholder, in_prefetch, in_edge, in_regional. tauto.
Qed.

Lemma function_buckets_use_a_key keys metadata c :
  In c (Config.functionDataWithPrefetchSecrets keys metadata)
  \/ In c (Config.functionDataWithoutPrefetchSecrets keys metadata) ->
  In c (Config.flat metadata)
  /\ Config.usesSomeKey keys c = true /\ Stacks.type c = "Function".
Proof.
  unfold Config.functionDataWithPrefetchSecrets,
    Config.functionDataWithoutPrefetchSecrets, Config.functionData.
  rewrite !filter_In, String.eqb_eq. tauto.
Qed.

Section RestartMore.

Context {B : Type} (backend : Backend B).

(** X16. With an empty key list, or keys that no resource of the snapshot
    reads, [restart] only reads the metadata: it sends no request to the
    compute service and returns a report whose six groups are empty. *)
Theorem restart_without_readers
    (keys : list string) (w : World B) (metadata : Stacks.Metadata) (b1 : B) :
  respond backend StacksMetadata (svc w) = (Fulfilled metadata, b1) ->
  keys = [] \/ Forall (fun c => Config.usesSomeKey keys c = false)
                 (Config.flat metadata) ->
  Config.restart backend keys w
  = (Return {| edgeSites := []; sites := []; placeholderSites := [];
               functions := []; sitesWithPrefetch := [];
               functionsWithPrefetch := [] |},
     {| svc := b1; trace := trace w ++ [Sent StacksMetadata] |}).
Proof.
  intros Hmeta Hkeys.
  assert (Hnone : forall l, incl l (Config.flat metadata) ->
                            List.filter (Config.usesSomeKey keys) l = []).
  { intros l Hl. apply filter_none. apply List.Forall_forall. intros c Hc.
    destruct Hkeys as [->|Hall]; [reflexivity|].
    rewrite List.Forall_forall in Hall. apply Hall, Hl, Hc. }
  assert (Hsites : Config.siteData keys metadata = []).
  { apply Hnone. intros c [Hc _]%filter_In. exact Hc. }
  assert (Hfuns : Config.functionData keys metadata = []).
  { apply Hnone. intros c [[Hc _]%filter_In _]%filter_In. exact Hc. }
  unfold Config.restart, bind at 1, send. rewrite Hmeta.
  unfold Config.siteDataRegional, Config.siteDataEdge, Config.siteDataPlaceholder,
    Config.siteDataWithPrefetchSecrets, Config.functionDataWithoutPrefetchSecrets,
    Config.functionDataWithPrefetchSecrets.
  rewrite Hsites, Hfuns. reflexivity.
Qed.

Lemma restartFunction_accepted (fn : string) (w : World B) :
  (forall fn b, exists config b',
      respond backend (GetFunctionConfigurationCommand fn) b = (Fulfilled config, b')) ->
  (forall fn vars b, exists b',
      respond backend (UpdateFunctionConfigurationCommand fn vars) b = (Fulfilled tt, b')) ->
  exists w', restartFunction backend fn w = (Return true, w').
Proof.
  intros Hget Hupd.
  unfold restartFunction, try_catch, bind, send, Date_now, ret. cbn [svc trace].
  destruct (Hget fn (svc w)) as (config & b1 & ->). cbn [svc trace].
  match goal with
  | |- context [respond backend ?c b1] =>
      match c with
      | UpdateFunctionConfigurationCommand _ ?vars =>
          destruct (Hupd fn vars b1) as (b2 & ->)
      end
  end. eauto.
Qed.

Lemma restartAll_accepted (target : Stacks.Construct -> string)
    (cs : list Stacks.Construct) (w : World B) :
  (forall fn b, exists config b',
      respond backend (GetFunctionConfigurationCommand fn) b = (Fulfilled config, b')) ->
  (forall fn vars b, exists b',
      respond backend (UpdateFunctionConfigurationCommand fn vars) b = (Fulfilled tt, b')) ->
  exists settled w',
    mapM (Config.restartOne backend target) cs w = (Return settled, w')
    /\ omap (fun c => c) settled = cs.
Proof.
  intros Hget Hupd. revert w. induction cs as [|c cs IH]; intros w.
  - exists [], w. split; reflexivity.
  - destruct (restartFunction_accepted (target c) w Hget Hupd) as (w1 & Hrun).
    destruct (IH w1) as (settled & w2 & Hrest & Hkept).
    exists (Some c :: settled), w2. split.
    + cbn [mapM]. unfold bind at 1. unfold Config.restartOne at 1. unfold bind at 1.
      rewrite Hrun. unfold ret at 1. unfold bind at 1. rewrite Hrest. reflexivity.
    + cbn. now rewrite Hkept.
Qed.

(** X17. When the compute service accepts every read and every update,
    [restart] reports as restarted every site of the regional group and
    every selected function without prefetch, in the order of the
    snapshot. *)
Theorem restart_reports_all_when_accepted
    (keys : list string) (w : World B) (metadata : Stacks.Metadata) (b1 : B) :
  respond backend StacksMetadata (svc w) = (Fulfilled metadata, b1) ->
  (forall fn b, exists config b',
      respond backend (GetFunctionConfigurationCommand fn) b = (Fulfilled config, b')) ->
  (forall fn vars b, exists b',
      respond backend (UpdateFunctionConfigurationCommand fn vars) b = (Fulfilled tt, b')) ->
  exists (report : Report) (w' : World B),
    Config.restart backend keys w = (Return report, w')
    /\ sites report = Config.siteDataRegional keys metadata
    /\ functions report = Config.functionDataWithoutPrefetchSecrets keys metadata.
Proof.
  intros Hmeta Hget Hupd.
  set (w1 := {| svc := b1; trace := trace w ++ [Sent StacksMetadata] |}).
  destruct (restartAll_accepted (fun s => Stacks.server (Stacks.data s))
              (Config.siteDataRegional keys metadata) w1 Hget Hupd)
    as (settled1 & w2 & Hrun1 & Hkept1).
  destruct (restartAll_accepted (fun f => Stacks.arn (Stacks.data f))
              (Config.functionDataWithoutPrefetchSecrets keys metadata) w2 Hget Hupd)
    as (settled2 & w3 & Hrun2 & Hkept2).
  eexists _, w3. split.
  - unfold Config.restart. unfold bind at 1.
    unfold send. rewrite Hmeta. fold w1.
    unfold bind at 1. unfold bind at 1. rewrite Hrun1. unfold ret at 1.
    unfold bind at 1. unfold bind at 1. rewrite Hrun2. reflexivity.
  - cbn [sites functions]. auto.
Qed.

(** X18. Every resource in any of the six groups of the report is a
    construct of the snapshot that reads at least one of the keys; the
    site groups hold constructs of the five site types only and the
    function groups constructs of type Function only. *)
Theorem restart_reports_only_readers
    (keys : list string) (w : World B) (metadata : Stacks.Metadata) (b1 : B) :
  respond backend StacksMetadata (svc w) = (Fulfilled metadata, b1) ->
  exists (report : Report) (w' : World B),
    Config.restart backend keys w = (Return report, w')
    /\ (forall group c,
          In group (map snd (Report_entries report)) -> In c group ->
          In c (Config.flat metadata) /\ Config.usesSomeKey keys c = true)
    /\ (forall c, In c (edgeSites report) \/ In c (sites report)
                  \/ In c (placeholderSites report) \/ In c (sitesWithPrefetch report) ->
                  Config.isSite c = true)
    /\ (forall c, In c (functions report) \/ In c (functionsWithPrefetch report) ->
                  Stacks.type c = "Function").
Proof.
  intros Hmeta.
  destruct (restart_runs backend keys w metadata b1 Hmeta)
    as (rs & rf & w' & calls & Hrun & _ & _ & _ & Hrs & Hrf).
  eexists _, w'. split; [exact Hrun|].
  cbn [Report_entries map snd edgeSites sites placeholderSites functions
         sitesWithPrefetch functionsWithPrefetch].
  split; [|split].
  - intros group c Hgroup Hc. cbn [In] in Hgroup.
    destruct Hgroup as [<-|[<-|[<-|[<-|[<-|[<-|[]]]]]]].
    + destruct (site_buckets_use_a_key keys metadata c) as (? & ? & ?); auto 8.
    + destruct (site_buckets_use_a_key keys metadata c) as (? & ? & ?); auto 8.
    + destruct (site_buckets_use_a_key keys metadata c) as (? & ? & ?); auto 8.
    + destruct (function_buckets_use_a_key keys metadata c) as (? & ? & ?); auto 8.
    + destruct (site_buckets_use_a_key keys metadata c) as (? & ? & ?); auto 8.
    + destruct (function_buckets_use_a_key keys metadata c) as (? & ? & ?); auto 8.
  - intros c Hc. apply (site_buckets_use_a_key keys metadata c).
    destruct Hc as [?|[?|[?|?]]]; auto 8.
  - intros c Hc. apply (function_buckets_use_a_key keys metadata c).
    destruct Hc as [?|?]; auto 8.
Qed.

End RestartMore.

Lemma restart_without_readers_witness :
  Config.restart InMemory.backend [] (InMemory.start Fixtures.site_cloud)
  = (Return {| edgeSites := []; sites := []; placeholderSites := [];
               functions := []; sitesWithPrefetch := [];
               functionsWithPrefetch := [] |},
     {| svc := Fixtures.site_cloud; trace := [Sent StacksMetadata] |}).
Proof.
  exact (restart_without_readers InMemory.backend [] (InMemory.start Fixtures.site_cloud)
           (InMemory.deployment Fixtures.site_cloud) Fixtures.site_cloud
           eq_refl (or_introl eq_refl)).
Defined.

Lemma restart_reports_all_when_accepted_witness :
  exists (report : Report) (w' : World unit),
    Config.restart (agreeable (InMemory.deployment Fixtures.site_cloud)) ["k"]
      Fixtures.nowhere = (Return report, w')
    /\ sites report = [Fixtures.regional_site]
    /\ functions report = [Fixtures.plain_function].
Proof.
  destruct (restart_reports_all_when_accepted
              (agreeable (InMemory.deployment Fixtures.site_cloud)) ["k"]
              Fixtures.nowhere (InMemory.deployment Fixtures.site_cloud) tt eq_refl)
    as (report & w' & Hrun & Hsites & Hfunctions).
  - intros fn b. eexists _, _. reflexivity.
  - intros fn vars b. eexists. reflexivity.
  - exists report, w'. split; [exact Hrun|]. rewrite Hsites, Hfunctions. split; reflexivity.
Defined.

Lemma restart_reports_only_readers_witness :
  exists (report : Report) (w' : World InMemory.Cloud),
    Config.restart InMemory.backend ["k"] (InMemory.start Fixtures.site_cloud)
    = (Return report, w')
    /\ forall c, In c (functions report) -> Stacks.type c = "Function".
Proof.
  destruct (restart_reports_only_readers InMemory.backend ["k"]
              (InMemory.start Fixtures.site_cloud)
              (InMemory.deployment Fixtures.site_cloud) Fixtures.site_cloud eq_refl)
    as (report & w' & Hrun & _ & _ & Hfunctions).
  exists report, w'. split; [exact Hrun|]. intros c Hc. apply Hfunctions. now left.
Defined.
